(** * esnupi-voice: the live-audio element (src/index.tsx)

    A shallow embedding of the [GdmLiveAudio] custom element: the ingest
    path (voice-activity gate, resampler, chunk buffer with its in-flight
    guard), the playback scheduler (gapless start times, interruption) and
    the conversation state that both paths assign.

    Conventions of the model.
    - In the element, a JavaScript number is an exact rational ([Q]) and a
      [Float32Array] a [list Q]: the buffer, the guard and the scheduler
      depend on how many frames and seconds there are, not on their last
      bit.  The resampler is also given in the arithmetic of the language,
      binary64 numbers stored into float32 arrays (module [Binary64]).
    - Every callback of the element is one atomic step on [State] that also
      returns the calls it makes on its collaborators ([effect]): the
      transport, the timer queue, the audio sources and the status line.
    - A method body is left by returning or by an exception ([completion]);
      an exception skips the rest of every caller up to the callback, which
      the host abandons.
    - [calculateAudioLevel] takes a square root, which leaves [Q]; the gate
      compares the mean square with the squared threshold instead
      ([hasVoiceActivity], justified by [hasVoiceActivity_level]).
    - Device plumbing that carries no decision (gain nodes, the script
      processor connections, media tracks, [lastAudioLevel], which only
      [render] reads) is left out. *)

From Stdlib Require Import QArith Qabs Qround Qminmax Lia Lqa ZArith.
From Stdlib Require Import PrimFloat FloatOps SpecFloat.
From stdpp Require Import base list strings.

#[local] Open Scope Q_scope.
#[local] Open Scope nat_scope.

(** ** Data *)

Inductive ConversationState := waiting | listening | processing | responding.

#[global] Instance ConversationState_eq_dec : EqDecision ConversationState.
Proof. solve_decision. Defined.

(** The part of the Web Audio context the element reads. *)
Record AudioContext := { currentTime : Q; sampleRate : positive }.

Notation Float32Array := (list Q) (only parsing).

(** An [AudioBufferSourceNode] is known by its identity only: the number of
    sources created before it. *)
Notation AudioBufferSourceNode := nat (only parsing).

(** Calls made on the collaborators, in program order. *)
Inductive effect :=
| SendRealtimeInput (combinedAudio : Float32Array)
| SetTimeout (ms : nat)
| SourceStart (source : AudioBufferSourceNode) (when : Q)
| SourceStop (source : AudioBufferSourceNode)
| UpdateStatus (msg : string)
| UpdateError (msg : string)
| SessionClose.

Record State := {
  isRecording : bool;
  status : string;
  error : string;
  conversationState : ConversationState;
  session : bool;
  audioContext : option AudioContext;
  nextStartTime : Q;
  mediaStream : bool;
  sources : list AudioBufferSourceNode;
  audioBuffer : list Float32Array;
  silenceCount : nat;
  isProcessingAudio : bool;
  (* bookkeeping of the host: identities handed out, queued callbacks *)
  createdSources : nat;
  pendingTimeouts : nat;
  pendingOpens : nat
}.

(** Field initialisers of the class. *)
Definition initial : State := {|
  isRecording := false; status := EmptyString; error := EmptyString;
  conversationState := waiting; session := false; audioContext := None;
  nextStartTime := 0%Q; mediaStream := false; sources := [];
  audioBuffer := []; silenceCount := 0; isProcessingAudio := false;
  createdSources := 0; pendingTimeouts := 0; pendingOpens := 0 |}.

Definition silenceThreshold : Q := 1 # 100.
Definition maxSilenceFrames : nat := 30.
Definition minAudioFrames : nat := 10.
Definition outputSampleRate : Q := 16000.

(** ** Field assignment *)

Definition set_isRecording (v : bool) (s : State) : State :=
  {| isRecording := v; status := status s; error := error s;
     conversationState := conversationState s; session := session s;
     audioContext := audioContext s; nextStartTime := nextStartTime s;
     mediaStream := mediaStream s; sources := sources s;
     audioBuffer := audioBuffer s; silenceCount := silenceCount s;
     isProcessingAudio := isProcessingAudio s;
     createdSources := createdSources s;
     pendingTimeouts := pendingTimeouts s; pendingOpens := pendingOpens s |}.

Definition set_status (v : string) (s : State) : State :=
  {| isRecording := isRecording s; status := v; error := error s;
     conversationState := conversationState s; session := session s;
     audioContext := audioContext s; nextStartTime := nextStartTime s;
     mediaStream := mediaStream s; sources := sources s;
     audioBuffer := audioBuffer s; silenceCount := silenceCount s;
     isProcessingAudio := isProcessingAudio s;
     createdSources := createdSources s;
     pendingTimeouts := pendingTimeouts s; pendingOpens := pendingOpens s |}.

Definition set_error (v : string) (s : State) : State :=
  {| isRecording := isRecording s; status := status s; error := v;
     conversationState := conversationState s; session := session s;
     audioContext := audioContext s; nextStartTime := nextStartTime s;
     mediaStream := mediaStream s; sources := sources s;
     audioBuffer := audioBuffer s; silenceCount := silenceCount s;
     isProcessingAudio := isProcessingAudio s;
     createdSources := createdSources s;
     pendingTimeouts := pendingTimeouts s; pendingOpens := pendingOpens s |}.

Definition set_conversationState (v : ConversationState) (s : State) : State :=
  {| isRecording := isRecording s; status := status s; error := error s;
     conversationState := v; session := session s;
     audioContext := audioContext s; nextStartTime := nextStartTime s;
     mediaStream := mediaStream s; sources := sources s;
     audioBuffer := audioBuffer s; silenceCount := silenceCount s;
     isProcessingAudio := isProcessingAudio s;
     createdSources := createdSources s;
     pendingTimeouts := pendingTimeouts s; pendingOpens := pendingOpens s |}.

Definition set_session (v : bool) (s : State) : State :=
  {| isRecording := isRecording s; status := status s; error := error s;
     conversationState := conversationState s; session := v;
     audioContext := audioContext s; nextStartTime := nextStartTime s;
     mediaStream := mediaStream s; sources := sources s;
     audioBuffer := audioBuffer s; silenceCount := silenceCount s;
     isProcessingAudio := isProcessingAudio s;
     createdSources := createdSources s;
     pendingTimeouts := pendingTimeouts s; pendingOpens := pendingOpens s |}.

Definition set_audioContext (v : option AudioContext) (s : State) : State :=
  {| isRecording := isRecording s; status := status s; error := error s;
     conversationState := conversationState s; session := session s;
     audioContext := v; nextStartTime := nextStartTime s;
     mediaStream := mediaStream s; sources := sources s;
     audioBuffer := audioBuffer s; silenceCount := silenceCount s;
     isProcessingAudio := isProcessingAudio s;
     createdSources := createdSources s;
     pendingTimeouts := pendingTimeouts s; pendingOpens := pendingOpens s |}.

Definition set_nextStartTime (v : Q) (s : State) : State :=
  {| isRecording := isRecording s; status := status s; error := error s;
     conversationState := conversationState s; session := session s;
     audioContext := audioContext s; nextStartTime := v;
     mediaStream := mediaStream s; sources := sources s;
     audioBuffer := audioBuffer s; silenceCount := silenceCount s;
     isProcessingAudio := isProcessingAudio s;
     createdSources := createdSources s;
     pendingTimeouts := pendingTimeouts s; pendingOpens := pendingOpens s |}.

Definition set_mediaStream (v : bool) (s : State) : State :=
  {| isRecording := isRecording s; status := status s; error := error s;
     conversationState := conversationState s; session := session s;
     audioContext := audioContext s; nextStartTime := nextStartTime s;
     mediaStream := v; sources := sources s;
     audioBuffer := audioBuffer s; silenceCount := silenceCount s;
     isProcessingAudio := isProcessingAudio s;
     createdSources := createdSources s;
     pendingTimeouts := pendingTimeouts s; pendingOpens := pendingOpens s |}.

Definition set_sources (v : list AudioBufferSourceNode) (s : State) : State :=
  {| isRecording := isRecording s; status := status s; error := error s;
     conversationState := conversationState s; session := session s;
     audioContext := audioContext s; nextStartTime := nextStartTime s;
     mediaStream := mediaStream s; sources := v;
     audioBuffer := audioBuffer s; silenceCount := silenceCount s;
     isProcessingAudio := isProcessingAudio s;
     createdSources := createdSources s;
     pendingTimeouts := pendingTimeouts s; pendingOpens := pendingOpens s |}.

Definition set_audioBuffer (v : list Float32Array) (s : State) : State :=
  {| isRecording := isRecording s; status := status s; error := error s;
     conversationState := conversationState s; session := session s;
     audioContext := audioContext s; nextStartTime := nextStartTime s;
     mediaStream := mediaStream s; sources := sources s;
     audioBuffer := v; silenceCount := silenceCount s;
     isProcessingAudio := isProcessingAudio s;
     createdSources := createdSources s;
     pendingTimeouts := pendingTimeouts s; pendingOpens := pendingOpens s |}.

Definition set_silenceCount (v : nat) (s : State) : State :=
  {| isRecording := isRecording s; status := status s; error := error s;
     conversationState := conversationState s; session := session s;
     audioContext := audioContext s; nextStartTime := nextStartTime s;
     mediaStream := mediaStream s; sources := sources s;
     audioBuffer := audioBuffer s; silenceCount := v;
     isProcessingAudio := isProcessingAudio s;
     createdSources := createdSources s;
     pendingTimeouts := pendingTimeouts s; pendingOpens := pendingOpens s |}.

Definition set_isProcessingAudio (v : bool) (s : State) : State :=
  {| isRecording := isRecording s; status := status s; error := error s;
     conversationState := conversationState s; session := session s;
     audioContext := audioContext s; nextStartTime := nextStartTime s;
     mediaStream := mediaStream s; sources := sources s;
     audioBuffer := audioBuffer s; silenceCount := silenceCount s;
     isProcessingAudio := v;
     createdSources := createdSources s;
     pendingTimeouts := pendingTimeouts s; pendingOpens := pendingOpens s |}.

Definition set_createdSources (v : nat) (s : State) : State :=
  {| isRecording := isRecording s; status := status s; error := error s;
     conversationState := conversationState s; session := session s;
     audioContext := audioContext s; nextStartTime := nextStartTime s;
     mediaStream := mediaStream s; sources := sources s;
     audioBuffer := audioBuffer s; silenceCount := silenceCount s;
     isProcessingAudio := isProcessingAudio s;
     createdSources := v;
     pendingTimeouts := pendingTimeouts s; pendingOpens := pendingOpens s |}.

Definition set_pendingTimeouts (v : nat) (s : State) : State :=
  {| isRecording := isRecording s; status := status s; error := error s;
     conversationState := conversationState s; session := session s;
     audioContext := audioContext s; nextStartTime := nextStartTime s;
     mediaStream := mediaStream s; sources := sources s;
     audioBuffer := audioBuffer s; silenceCount := silenceCount s;
     isProcessingAudio := isProcessingAudio s;
     createdSources := createdSources s;
     pendingTimeouts := v; pendingOpens := pendingOpens s |}.

Definition set_pendingOpens (v : nat) (s : State) : State :=
  {| isRecording := isRecording s; status := status s; error := error s;
     conversationState := conversationState s; session := session s;
     audioContext := audioContext s; nextStartTime := nextStartTime s;
     mediaStream := mediaStream s; sources := sources s;
     audioBuffer := audioBuffer s; silenceCount := silenceCount s;
     isProcessingAudio := isProcessingAudio s;
     createdSources := createdSources s;
     pendingTimeouts := pendingTimeouts s; pendingOpens := v |}.

(** ** Callbacks as actions

    A method body is an [action]: it transforms the element, lists the
    calls it made and says how it was left. *)

Inductive completion := returned | thrown.

Definition action := State -> State * list effect * completion.

Definition skip : action := fun s => (s, [], returned).

(** [a; b]: the statements after a throwing one are not executed. *)
Definition andThen (a b : action) : action := fun s =>
  match a s with
  | (s1, o1, returned) =>
      match b s1 with
      | (s2, o2, c) => (s2, o1 ++ o2, c)
      end
  | (s1, o1, thrown) => (s1, o1, thrown)
  end.

#[local] Notation "a >> b" := (andThen a b) (at level 62, right associativity).

Definition assign (f : State -> State) : action := fun s =>
  (f s, [], returned).

Definition call (e : effect) : action := fun s => (s, [e], returned).

Definition whenever (c : State -> bool) (a : action) : action := fun s =>
  if c s then a s else (s, [], returned).

(** An uncaught exception: the element stays as it is at that point. *)
Definition throw : action := fun s => (s, [], thrown).

Definition updateStatus (msg : string) : action :=
  assign (set_status msg) >> call (UpdateStatus msg).

Definition updateError (msg : string) : action :=
  assign (set_error msg) >> call (UpdateError msg).

(** ** Typed arrays *)

(** [new Float32Array(n)] is [n] zeros. *)
Definition new_Float32Array (n : nat) : Float32Array := replicate n 0%Q.

(** [target.set(src, offset)] overwrites [target] from [offset] on and raises
    RangeError ([None]) when [src] does not fit. *)
Definition Float32Array_set (target src : Float32Array) (offset : nat)
  : option Float32Array :=
  if offset + length src <=? length target
  then Some (take offset target ++ src ++ drop (offset + length src) target)
  else None.

(** [a[i]] for a number [i]: [undefined] outside the array. *)
Definition element (a : Float32Array) (i : Z) : option Q :=
  if (i <? 0)%Z then None else a !! Z.to_nat i.

(** [a[i]] where the surrounding guard has established that [i] is in range. *)
Definition sample (a : Float32Array) (i : Z) : Q := default 0%Q (element a i).

(** [a[i] || 0]: an absent or zero element yields 0. *)
Definition elementOrZero (a : Float32Array) (i : Z) : Q :=
  match element a i with
  | Some v => if Qeq_bool v 0 then 0%Q else v
  | None => 0%Q
  end.

(** ** Resampler (resampleTo16kHz)

    The resampler over exact rationals, as the element uses it: what
    the buffer and the guard do with a frame does not depend on its samples.
    Its rendition in binary64 and float32, which decides the exact length
    and the stored bits, is [Binary64.resampleTo16kHz] below.  Meant for
    positive rates, which is what [AudioContext.sampleRate] is; at a rate of
    zero or below the allocation of [output] raises RangeError in the
    source, which this rendition does not represent. *)

Definition lengthQ (a : Float32Array) : Q := inject_Z (Z.of_nat (length a)).

(** The value the loop body computes for [output[i]]. *)
Definition resampledSample (input : Float32Array) (ratio : Q) (i : nat) : Q :=
  let srcIndex := (inject_Z (Z.of_nat i) * ratio)%Q in
  let index := Qfloor srcIndex in
  let fraction := (srcIndex - inject_Z index)%Q in
  if (index + 1 <? Z.of_nat (length input))%Z
  then (sample input index * (1 - fraction)
        + sample input (index + 1) * fraction)%Q
  else elementOrZero input index.

(** One iteration of the [for] loop: the assignment to [output[i]]. *)
Definition resampleStep (input : Float32Array) (ratio : Q)
    (output : Float32Array) (i : nat) : Float32Array :=
  <[ i := resampledSample input ratio i ]> output.

Definition resampleTo16kHz (input : Float32Array) (inputSampleRate : Q)
  : Float32Array :=
  if Qeq_bool inputSampleRate outputSampleRate then input
  else
    let ratio := (inputSampleRate / outputSampleRate)%Q in
    let outputLength := Z.to_nat (Qfloor (lengthQ input / ratio)) in
    foldl (resampleStep input ratio) (new_Float32Array outputLength)
          (seq 0 outputLength).

(** ** Level meter and gate

    [calculateAudioLevel] returns [Math.sqrt(sum / samples.length)];
    [meanSquare] is the argument of that square root. *)

Definition sumSquares (samples : Float32Array) : Q :=
  foldl (fun sum x => (sum + x * x)%Q) 0%Q samples.

Definition meanSquare (samples : Float32Array) : Q :=
  (sumSquares samples / lengthQ samples)%Q.

(** [hasVoiceActivity(calculateAudioLevel(pcm))], that is
    [sqrt(meanSquare) > silenceThreshold], decided on the squares. *)
Definition hasVoiceActivity (pcmData : Float32Array) : bool :=
  negb (Qle_bool (meanSquare pcmData) (silenceThreshold * silenceThreshold)).

(** ** Ingest buffer (sendAudioChunk) *)

(** The [for ... of] loop copying each buffered frame at a running offset. *)
Fixpoint copyChunks (chunks : list Float32Array) (combinedAudio : Float32Array)
    (offset : nat) : option Float32Array :=
  match chunks with
  | [] => Some combinedAudio
  | chunk :: rest =>
      match Float32Array_set combinedAudio chunk offset with
      | Some written => copyChunks rest written (offset + length chunk)
      | None => None
      end
  end.

Definition totalLength (chunks : list Float32Array) : nat :=
  foldl (fun sum chunk => sum + length chunk) 0 chunks.

Definition combineAudio (chunks : list Float32Array) : option Float32Array :=
  copyChunks chunks (new_Float32Array (totalLength chunks)) 0.

(** The payload is recorded as handed to [createBlob] (of ./utils), before
    its encoding.  [this.session] is read without a test: when no session
    was ever connected, [this.session.sendRealtimeInput] raises TypeError,
    after the guard was set and before the buffer is cleared and the timer
    queued. *)
Definition sendAudioChunk : action := fun s =>
  if (length (audioBuffer s) <? minAudioFrames) || isProcessingAudio s
  then (s, [], returned)
  else
    (assign (set_isProcessingAudio true) >>
     (fun s =>
        match combineAudio (audioBuffer s) with
        | Some combinedAudio =>
            if session s
            then (call (SendRealtimeInput combinedAudio) >>
                  assign (set_audioBuffer []) >>
                  call (SetTimeout 50) >>
                  assign (fun s => set_pendingTimeouts (S (pendingTimeouts s)) s)) s
            else throw s   (* TypeError: [this.session] is undefined *)
        | None => throw s  (* RangeError of [combinedAudio.set] *)
        end)) s.

(** ** The set of playing sources

    A JavaScript [Set] iterates in insertion order and holds no duplicate. *)

Definition Set_add (x : AudioBufferSourceNode) (l : list AudioBufferSourceNode) :=
  if bool_decide (x ∈ l) then l else l ++ [x].

Definition Set_delete (x : AudioBufferSourceNode) (l : list AudioBufferSourceNode) :=
  filter (fun y => y ≠ x) l.

(** [for (const source of this.sources.values()) { source.stop();
    this.sources.delete(source); }]: the iterator walks the entries present
    when the loop started and skips those deleted in the meantime. *)
Fixpoint stopSources (iterator live : list AudioBufferSourceNode)
  : list AudioBufferSourceNode * list effect :=
  match iterator with
  | [] => (live, [])
  | source :: rest =>
      if bool_decide (source ∈ live)
      then let (live', out) := stopSources rest (Set_delete source live) in
           (live', SourceStop source :: out)
      else stopSources rest live
  end.

(** ** Session callbacks *)

Definition onopen : action :=
  updateStatus "Ready to listen to your complaint" >>
  assign (set_conversationState waiting).

(** The block guarded by [audio && this.audioContext && this.outputNode].
    The gain nodes are created together with the context and never cleared,
    so the guard is decided by the context.  [decodeAudioData] yields a
    buffer of which only [duration] is used; the handler is one step. *)
Definition playAudio (duration : Q) (ctx : AudioContext) : action :=
  assign (set_conversationState responding) >>
  updateStatus "Assistant is responding..." >>
  assign (fun s => set_nextStartTime
                     (Qmax (nextStartTime s) (currentTime ctx)) s) >>
  (fun s =>
     let source := createdSources s in
     (set_sources (Set_add source (sources s))
        (set_nextStartTime (nextStartTime s + duration)%Q
           (set_createdSources (S source) s)),
      [SourceStart source (nextStartTime s)], returned)).

Definition interrupt : action := fun s =>
  let (live, out) := stopSources (sources s) (sources s) in
  (set_nextStartTime 0%Q (set_sources live s), out, returned).

Definition onmessage (audio : option Q) (interrupted : bool) : action :=
  (fun s => match audio, audioContext s with
            | Some duration, Some ctx => playAudio duration ctx s
            | _, _ => (s, [], returned)
            end) >>
  whenever (fun _ => interrupted) interrupt.

(** The ['ended'] listener of a source. *)
Definition onended (source : AudioBufferSourceNode) : action :=
  assign (fun s => set_sources (Set_delete source (sources s)) s) >>
  whenever (fun s => length (sources s) =? 0)
    (assign (set_conversationState waiting) >>
     updateStatus "Listening for your response...").

(** ** Capture callback (onaudioprocess) *)

Definition rateOf (ctx : AudioContext) : Q := inject_Z (Zpos (sampleRate ctx)).

Definition onaudioprocess (pcmData : Float32Array) : action := fun s =>
  if negb (isRecording s) then (s, [], returned)
  else if hasVoiceActivity pcmData then
    (assign (set_silenceCount 0) >>
     assign (set_conversationState listening) >>
     updateStatus "🔴 Capturing your voice..." >>
     (fun s =>
        match audioContext s with
        | Some ctx =>
            (assign (fun s => set_audioBuffer
                       (audioBuffer s ++ [resampleTo16kHz pcmData (rateOf ctx)]) s) >>
             whenever (fun s => 20 <=? length (audioBuffer s)) sendAudioChunk) s
        | None => throw s   (* TypeError on [this.audioContext.sampleRate] *)
        end)) s
  else
    (assign (fun s => set_silenceCount (S (silenceCount s)) s) >>
     whenever (fun s => (0 <? length (audioBuffer s))
                        && (maxSilenceFrames <=? silenceCount s))
       (sendAudioChunk >>
        assign (set_conversationState processing) >>
        updateStatus "Processing your input...")) s.

(** ** Controls *)

Definition initAudio (deviceRate : positive) : action :=
  assign (fun s => match audioContext s with
                   | None => set_audioContext
                               (Some {| currentTime := 0; sampleRate := deviceRate |}) s
                   | Some _ => s
                   end) >>
  assign (fun s => match audioContext s with
                   | Some ctx => set_nextStartTime (currentTime ctx) s
                   | None => s
                   end).

(** A TypeError of the final sendAudioChunk leaves stopRecording at once:
    the stream and the three ingest fields are then not reset. *)
Definition stopRecording : action := fun s =>
  if negb (isRecording s) && negb (mediaStream s)
     && negb (bool_decide (is_Some (audioContext s)))
  then (s, [], returned)
  else
    (updateStatus "Stopping recording..." >>
     assign (set_isRecording false) >>
     whenever (fun s => 0 <? length (audioBuffer s)) sendAudioChunk >>
     assign (set_mediaStream false) >>
     assign (set_audioBuffer []) >>
     assign (set_silenceCount 0) >>
     assign (set_isProcessingAudio false) >>
     assign (set_conversationState processing) >>
     updateStatus "Processing your input...") s.

(** initSession, awaited: with [connects] the connection is made,
    [this.session] assigned and [onopen] run; without, the failure is caught
    and logged and [this.session] stays as it was.  A connection fails when
    the service rejects it, and always when initClient created no client
    for want of an API key. *)
Definition initSession (connects : bool) : action :=
  whenever (fun _ => connects) (assign (set_session true) >> onopen).

(** startRecording, taken as one step: the connection attempt is awaited,
    and the microphone request either resolves or rejects with a message.
    After [initAudio] the context exists, so the
    ['Audio context not initialized'] exit is not taken.  Recording starts
    whether or not there is a session. *)
Definition startRecording (deviceRate : positive) (connects : bool)
    (micError : option string) : action := fun s =>
  if isRecording s then (s, [], returned)
  else
    (initAudio deviceRate >>
     whenever (fun s => negb (session s)) (initSession connects) >>
     updateStatus "Requesting microphone access..." >>
     match micError with
     | None =>
         assign (set_mediaStream true) >>
         updateStatus "Microphone access granted. Starting capture..." >>
         assign (set_isRecording true) >>
         assign (set_conversationState listening) >>
         updateStatus "🔴 Listening to your complaint..."
     | Some message =>
         updateStatus ("Error: " +:+ message) >> stopRecording
     end) s.

(** reset: the new session is not awaited; when the connection is made
    [this.session] is assigned (taken with the call) and [onopen] arrives
    later, otherwise [this.session] keeps the closed session, if any. *)
Definition reset (connects : bool) : action :=
  whenever session (call SessionClose) >>
  assign (set_audioBuffer []) >>
  assign (set_silenceCount 0) >>
  assign (set_isProcessingAudio false) >>
  whenever (fun s => bool_decide (is_Some (audioContext s)) && connects)
    (assign (fun s => set_pendingOpens (S (pendingOpens s)) (set_session true s))) >>
  assign (set_conversationState waiting) >>
  updateStatus "Session cleared. Ready for a new complaint.".

(** ** The element as a transition system *)

Inductive event :=
| StartRecording (deviceRate : positive) (connects : bool)
    (micError : option string)
| StopRecording
| ResetClick (connects : bool)
| AudioProcess (pcmData : Float32Array)
| ServerMessage (audio : option Q) (interrupted : bool)
| SourceEnded (source : AudioBufferSourceNode)
| TimeoutFired
| SessionOpened
| SessionError (message : string)
| SessionClosed (reason : string)
| ClockAdvance (dt : Q).

(** The [setTimeout] callback of sendAudioChunk, when one is queued. *)
Definition timeoutFired : action := fun s =>
  match pendingTimeouts s with
  | 0 => (s, [], returned)
  | S n => (set_isProcessingAudio false (set_pendingTimeouts n s), [], returned)
  end.

Definition sessionOpened : action := fun s =>
  match pendingOpens s with
  | 0 => (s, [], returned)
  | S n => onopen (set_pendingOpens n s)
  end.

(** The device clock moves forward by [dt]. *)
Definition clockAdvance (dt : Q) : action := fun s =>
  match audioContext s with
  | Some ctx =>
      if Qle_bool 0 dt
      then (set_audioContext
              (Some {| currentTime := (currentTime ctx + dt)%Q;
                       sampleRate := sampleRate ctx |}) s, [], returned)
      else (s, [], returned)
  | None => (s, [], returned)
  end.

(** The callback an event runs. *)
Definition handler (e : event) : action :=
  match e with
  | StartRecording deviceRate connects micError =>
      startRecording deviceRate connects micError
  | StopRecording => stopRecording
  | ResetClick connects => reset connects
  | AudioProcess pcmData => onaudioprocess pcmData
  | ServerMessage audio interrupted => onmessage audio interrupted
  | SourceEnded source =>
      fun s => if source <? createdSources s then onended source s
               else (s, [], returned)
  | TimeoutFired => timeoutFired
  | SessionOpened => sessionOpened
  | SessionError message => updateError message
  | SessionClosed reason => updateStatus ("Close:" +:+ reason)
  | ClockAdvance dt => clockAdvance dt
  end.

(** One event: its callback runs to its end or to an exception, which the
    host reports on the console; either way the element lives on as the
    callback left it. *)
Definition step (e : event) (s : State) : State * list effect :=
  fst (handler e s).

Fixpoint run (events : list event) (s : State) : State * list effect :=
  match events with
  | [] => (s, [])
  | e :: rest =>
      let (s1, o1) := step e s in
      let (s2, o2) := run rest s1 in
      (s2, o1 ++ o2)
  end.

Inductive reachable : State -> Prop :=
| reachable_initial : reachable initial
| reachable_step s e : reachable s -> reachable (fst (step e s)).

(** The events of a run in which recording never starts without a session:
    every start finds one or connects. *)
Definition connected (e : event) : bool :=
  match e with
  | StartRecording _ connects _ => connects
  | _ => true
  end.

Inductive online : State -> Prop :=
| online_initial : online initial
| online_step s e : online s -> connected e = true -> online (fst (step e s)).

(** ** Reading a trace *)

Definition sent (out : list effect) : list Float32Array :=
  omap (fun e => match e with SendRealtimeInput c => Some c | _ => None end) out.

Definition started (out : list effect) : list (AudioBufferSourceNode * Q) :=
  omap (fun e => match e with SourceStart x t => Some (x, t) | _ => None end) out.

Definition stopped (out : list effect) : list AudioBufferSourceNode :=
  omap (fun e => match e with SourceStop x => Some x | _ => None end) out.

Definition statuses (out : list effect) : list string :=
  omap (fun e => match e with UpdateStatus m => Some m | _ => None end) out.

(** The element after a flush that passed its guard: guard set, buffer
    cleared, one more timer queued. *)
Definition flushed (s : State) : State :=
  set_pendingTimeouts (S (pendingTimeouts s))
    (set_audioBuffer [] (set_isProcessingAudio true s)).

(** What holds of the element between any two callbacks: the playing
    sources are distinct and were all created, the device clock is not
    negative, the ingest fields are at rest until the first start creates
    the audio context, and recording needs that context. *)
Definition invariant (s : State) : Prop :=
  NoDup (sources s)
  /\ Forall (fun x => x < createdSources s) (sources s)
  /\ (forall ctx, audioContext s = Some ctx -> (0 <= currentTime ctx)%Q)
  /\ (audioContext s = None ->
      audioBuffer s = [] /\ silenceCount s = 0 /\ isProcessingAudio s = false)
  /\ (isRecording s = true -> is_Some (audioContext s)).

(** What holds in addition as long as recording never started without a
    session: there is a session while recording, the ingest fields are at
    rest while not recording, and a set guard has its timer queued. *)
Definition ingest_invariant (s : State) : Prop :=
  (isRecording s = true -> session s = true)
  /\ (isRecording s = false ->
      audioBuffer s = [] /\ silenceCount s = 0 /\ isProcessingAudio s = false)
  /\ (isProcessingAudio s = true -> 0 < pendingTimeouts s).

(** ** Scenarios

    The element right after a successful start on a 48 kHz device (clock 0),
    two 256-sample frames (the script processor delivers 256 samples per
    callback), one of level 0.5 (every sample at 0.5) and one of level 0.005
    (one sample at 0.08 in silence: sqrt(0.08 * 0.08 / 256) = 0.005), and
    three inbound fragments of 1.0 s, 0.5 s and 0.2 s. *)

Definition recording : State :=
  fst (step (StartRecording 48000 true None) initial).

(** The same start when no session could be connected, for want of an API
    key or because the connection failed. *)
Definition unconnected : State :=
  fst (step (StartRecording 48000 false None) initial).

Definition speech : list Q := replicate 256 (1 # 2)%Q.

Definition quiet : list Q := (2 # 25)%Q :: replicate 255 0%Q.

(** The speech frame as it is buffered, resampled from 48 kHz. *)
Definition speech16k : list Q := resampleTo16kHz speech 48000.

Definition threeSegments : list event :=
  [ServerMessage (Some 1%Q) false;
   ServerMessage (Some (1 # 2)%Q) false;
   ServerMessage (Some (1 # 5)%Q) false].

Definition afterThreeSegments : State := fst (run threeSegments recording).

(** A run of capture callbacks, one per frame. *)
Definition frames (l : list (list Q)) : list event := AudioProcess <$> l.

(** The recording element after twelve speech frames. *)
Definition spoken : State := fst (run (frames (replicate 12 speech)) recording).

(** The same twelve frames captured without a session. *)
Definition unsent : State := fst (run (frames (replicate 12 speech)) unconnected).

(** How often a trace announces ['Processing your input...'], which the
    capture callback does exactly when it takes its silence branch. *)
Definition stoppedSpeaking (out : list effect) : nat :=
  length (filter (fun msg => msg = "Processing your input...") (statuses out)).

(** The conversation states the callback of an event can assign. *)
Definition assignedBy (e : event) : list ConversationState :=
  match e with
  | StartRecording _ _ None => [listening]
  | StartRecording _ _ (Some _) => [processing]
  | StopRecording => [processing]
  | AudioProcess pcmData =>
      if hasVoiceActivity pcmData then [listening] else [processing]
  | ServerMessage (Some _) _ => [responding]
  | ResetClick _ | SourceEnded _ | SessionOpened => [waiting]
  | _ => []
  end.

(** The conversation states an element passes through, one per event. *)
Fixpoint visited (events : list event) (s : State) : list ConversationState :=
  match events with
  | [] => []
  | e :: rest =>
      conversationState (fst (step e s)) :: visited rest (fst (step e s))
  end.

(** The four transitions the specification lists. *)
Definition listedTransition (a b : ConversationState) : bool :=
  match a, b with
  | waiting, listening | listening, processing
  | processing, responding | responding, waiting => true
  | _, _ => false
  end.

(** The events that end or restart a capture session. *)
Definition keepsCapturing (e : event) : bool :=
  match e with
  | StopRecording | ResetClick _ => false
  | _ => true
  end.

(** The frame an event adds to the pending buffer of a recording element:
    the resampled frame of a capture callback that hears speech. *)
Definition captured (ctx : AudioContext) (e : event) : list (list Q) :=
  match e with
  | AudioProcess pcmData =>
      if hasVoiceActivity pcmData
      then [resampleTo16kHz pcmData (rateOf ctx)] else []
  | _ => []
  end.

(** The events other than pressing start. *)
Definition notStart (e : event) : bool :=
  match e with
  | StartRecording _ _ _ => false
  | _ => true
  end.

(** The events that leave a missing session missing: no start or reset
    that connects. *)
Definition staysOffline (e : event) : bool :=
  match e with
  | StartRecording _ connects _ | ResetClick connects => negb connects
  | _ => true
  end.

(** The events that neither enqueue a fragment, interrupt, nor press start:
    those after which the playback timeline is as before. *)
Definition keepsTimeline (e : event) : bool :=
  match e with
  | ServerMessage None false => true
  | ServerMessage _ _ => false
  | StartRecording _ _ _ => false
  | _ => true
  end.

(** ** The resampler in the arithmetic of the language

    [resampleTo16kHz] once more, as the engine runs it: every number is a
    binary64 [float], [Math.floor] and the division round as IEEE 754
    prescribes, and a store into a [Float32Array] rounds to float32
    ([Math_fround]).  An array holds its elements as numbers; lengths stay
    below 2^53, as they do in the language, and an allocation the engine
    would refuse for its size is not represented. *)
Module Binary64.

(** A length or a loop index as a number. *)
Definition of_nat (n : nat) : float :=
  of_uint63 (Uint63Axioms.of_Z (Z.of_nat n)).

Definition of_Z (z : Z) : float :=
  if (z <? 0)%Z then (- of_uint63 (Uint63Axioms.of_Z (- z)))%float
  else of_uint63 (Uint63Axioms.of_Z z).

(** [Math.floor]: a number of magnitude 2^52 or more (exponent not
    negative) is an integer already, as are zeros, infinities and NaN. *)
Definition Math_floor (x : float) : float :=
  match Prim2SF x with
  | S754_finite s m e =>
      if (e <? 0)%Z then of_Z (Z.shiftl (cond_Zopp s (Zpos m)) e) else x
  | _ => x
  end.

(** [Math.fround], the rounding of a store into a [Float32Array]: to the
    nearest float32 (24 bits of precision, exponents up to 128), ties to
    even, overflowing to an infinity. *)
Definition Math_fround (x : float) : float :=
  match Prim2SF x with
  | S754_finite s m e => SF2Prim (binary_round 24 128 s m e)
  | _ => x
  end.

(** The length [new Float32Array(x)] allocates: NaN counts as 0, a
    fraction is dropped, and a negative, infinite or too large length
    raises RangeError ([None]). *)
Definition toLength (x : float) : option nat :=
  match Prim2SF x with
  | S754_nan | S754_zero _ => Some 0
  | S754_finite s m e =>
      let magnitude := Z.shiftl (Zpos m) e in
      if s then (if (magnitude =? 0)%Z then Some 0 else None)
      else if (magnitude <? 2 ^ 53)%Z then Some (Z.to_nat magnitude) else None
  | S754_infinity _ => None
  end.

Definition new_Float32Array (length : float) : option (list float) :=
  (fun n => replicate n 0%float) <$> toLength length.

(** The array index a number denotes, if any: a non-negative integer. *)
Definition toIndex (x : float) : option nat :=
  match Prim2SF x with
  | S754_zero _ => Some 0
  | S754_finite false m e =>
      if (Math_floor x =? x)%float then Some (Z.to_nat (Z.shiftl (Zpos m) e))
      else None
  | _ => None
  end.

(** [a[index]]: [undefined] ([None]) outside the array. *)
Definition element (a : list float) (index : float) : option float :=
  match toIndex index with
  | Some i => a !! i
  | None => None
  end.

(** An array read used in arithmetic: [undefined] converts to NaN. *)
Definition number (v : option float) : float := default nan v.

(** [v || 0]: [undefined], both zeros and NaN are falsy. *)
Definition orZero (v : option float) : float :=
  match v with
  | Some x => if is_zero x || is_nan x then 0%float else x
  | None => 0%float
  end.

Definition outputSampleRate : float := 16000.

(** The value the loop body computes for [output[i]]. *)
Definition resampledSample (input : list float) (ratio : float) (i : nat)
  : float :=
  let srcIndex := (of_nat i * ratio)%float in
  let index := Math_floor srcIndex in
  let fraction := (srcIndex - index)%float in
  if (index + 1 <? of_nat (length input))%float
  then (number (element input index) * (1 - fraction)
        + number (element input (index + 1)) * fraction)%float
  else orZero (element input index).

(** One iteration of the [for] loop: the store into [output[i]]. *)
Definition resampleStep (input : list float) (ratio : float)
    (output : list float) (i : nat) : list float :=
  <[ i := Math_fround (resampledSample input ratio i) ]> output.

Definition resampleTo16kHz (input : list float) (inputSampleRate : float)
  : option (list float) :=
  if (inputSampleRate =? outputSampleRate)%float then Some input
  else
    let ratio := (inputSampleRate / outputSampleRate)%float in
    let outputLength := Math_floor (of_nat (length input) / ratio) in
    match new_Float32Array outputLength with
    | Some output =>
        Some (foldl (resampleStep input ratio) output (seq 0 (length output)))
    | None => None   (* RangeError *)
    end.

(** The sample the specification prescribes at output index [i]: linear
    interpolation between the input at [floor(i*ratio)] and its successor,
    weighted by the fractional part; when the successor is out of range,
    the lower sample, or 0 if that is out of range too. *)
Definition interpolatedSample (input : list float) (ratio : float) (i : nat)
  : float :=
  let position := (of_nat i * ratio)%float in
  let lower := Math_floor position in
  let weight := (position - lower)%float in
  if (lower + 1 <? of_nat (length input))%float
  then (number (element input lower) * (1 - weight)
        + number (element input (lower + 1)) * weight)%float
  else match element input lower with
       | Some sample => sample
       | None => 0%float
       end.

(** A frame of seven samples, all of them float32 values. *)
Definition sevenSamples : list float :=
  [0.5; 0.25; -0.75; 1; 0; 0.125; -0.5]%float.

End Binary64.

(** ** The visualiser (src/visual-simple.ts)

    [GdmLiveAudioVisualsSimple] draws one frame per animation tick from the
    first two bins of its analysers.  An analyser (of ./analyser) is known
    by its [data], a byte array; an absent analyser reads as level 0.  A bin
    outside the array would make the level NaN, which the model does not
    represent ([None]). *)
Module Visuals.

Inductive drawing :=
| MainCircle (radius opacity : Q)
| OuterRing (radius opacity : Q)
| InnerCircle (radius opacity : Q).

(** [analyser ? analyser.data[i] / 255 : 0] *)
Definition level (analyser : option (list Z)) (i : nat) : option Q :=
  match analyser with
  | None => Some 0%Q
  | Some data =>
      match data !! i with
      | Some byte => Some (inject_Z byte / 255)%Q
      | None => None
      end
  end.

(** The drawing part of [animate]: the filled main circle, the outer ring
    when the assistant is audible, the inner circle when the user is. *)
Definition animate (outputAnalyser inputAnalyser : option (list Z))
  : option (list drawing) :=
  match level outputAnalyser 0, level outputAnalyser 1,
        level inputAnalyser 0 with
  | Some audioLevel, Some pulseIntensity, Some inputLevel =>
      let baseRadius := 50%Q in
      let radius := (baseRadius + audioLevel * 100)%Q in
      let opacity := ((3 # 10) + pulseIntensity * (7 # 10))%Q in
      Some ([MainCircle radius opacity]
            ++ (if Qlt_le_dec (1 # 10) audioLevel
                then [OuterRing (radius + 20) (opacity * (1 # 2))%Q]
                else [])
            ++ (if Qlt_le_dec (1 # 10) inputLevel
                then [InnerCircle (20 + inputLevel * 30)%Q inputLevel]
                else []))
  | _, _, _ => None
  end.

(** The element's fields that decide when drawing starts; [loops] counts
    the animation loops started by [init]. *)
Record State := {
  canvas : bool;
  inputAnalyser : bool;
  outputAnalyser : bool;
  ctx : bool;
  loops : nat
}.

Definition initial : State :=
  {| canvas := false; inputAnalyser := false; outputAnalyser := false;
     ctx := false; loops := 0 |}.

(** [tryInitialize], with [init] inlined: take the 2d context and start
    the animation loop. *)
Definition tryInitialize (s : State) : State :=
  if canvas s && (inputAnalyser s || outputAnalyser s) && negb (ctx s)
  then {| canvas := canvas s; inputAnalyser := inputAnalyser s;
          outputAnalyser := outputAnalyser s;
          ctx := true; loops := S (loops s) |}
  else s.

(** What the element reacts to: the two node setters (with whether the
    node is set and has a context) and [firstUpdated]. *)
Inductive event :=
| SetOutputNode (usable : bool)
| SetInputNode (usable : bool)
| FirstUpdated.

Definition step (e : event) (s : State) : State :=
  match e with
  | SetOutputNode usable =>
      if usable
      then tryInitialize
             {| canvas := canvas s; inputAnalyser := inputAnalyser s;
                outputAnalyser := true; ctx := ctx s; loops := loops s |}
      else s
  | SetInputNode usable =>
      if usable
      then tryInitialize
             {| canvas := canvas s; inputAnalyser := true;
                outputAnalyser := outputAnalyser s;
                ctx := ctx s; loops := loops s |}
      else s
  | FirstUpdated =>
      tryInitialize
        {| canvas := true; inputAnalyser := inputAnalyser s;
           outputAnalyser := outputAnalyser s;
           ctx := ctx s; loops := loops s |}
  end.

Definition run (events : list event) (s : State) : State :=
  foldl (fun s e => step e s) s events.

End Visuals.

(** What holds of the visualiser after any events: it has its drawing
    context exactly when it has a canvas and an analyser, and then one
    animation loop. *)
Definition visuals_invariant (s : Visuals.State) : Prop :=
  Visuals.ctx s
  = Visuals.canvas s && (Visuals.inputAnalyser s || Visuals.outputAnalyser s)
  /\ Visuals.loops s = if Visuals.ctx s then 1 else 0.


(** * Proofs *)

(** Symbolic evaluation of a callback: unfold the combinators, then reduce
    field reads of assigned records. *)
Ltac unfold_actions :=
  cbv [andThen assign call whenever throw updateStatus updateError skip
       onopen initSession].

Ltac simpl_fields :=
  cbn [set_isRecording set_status set_error set_conversationState set_session
       set_audioContext set_nextStartTime set_mediaStream set_sources
       set_audioBuffer set_silenceCount set_isProcessingAudio
       set_createdSources set_pendingTimeouts set_pendingOpens flushed
       isRecording status error conversationState session audioContext
       nextStartTime mediaStream sources audioBuffer silenceCount
       isProcessingAudio createdSources pendingTimeouts pendingOpens
       fst snd app negb].

Ltac crunch := unfold_actions; simpl_fields.

Ltac unfold_handlers :=
  cbv [step handler startRecording stopRecording reset onaudioprocess
       onmessage playAudio interrupt onended initAudio timeoutFired
       sessionOpened clockAdvance].

(** ** Typed arrays and the combined chunk *)

Lemma totalLength_from (chunks : list Float32Array) (n : nat) :
  foldl (fun sum chunk => sum + length chunk) n chunks
  = n + length (concat chunks).
Proof.
  revert n; induction chunks as [|c chunks IH]; intros n; simpl.
  - lia.
  - rewrite IH, length_app. lia.
Qed.

Lemma totalLength_concat (chunks : list Float32Array) :
  totalLength chunks = length (concat chunks).
Proof. unfold totalLength. now rewrite totalLength_from. Qed.

Lemma Float32Array_set_fresh (done chunk : Float32Array) (n : nat) :
  length chunk <= n ->
  Float32Array_set (done ++ new_Float32Array n) chunk (length done)
  = Some ((done ++ chunk) ++ new_Float32Array (n - length chunk)).
Proof.
  intros Hfit. unfold Float32Array_set, new_Float32Array.
  rewrite length_app, length_replicate.
  destruct (Nat.leb_spec (length done + length chunk) (length done + n)); [|lia].
  rewrite take_app_length, drop_app_add, drop_replicate.
  now rewrite <- app_assoc.
Qed.

Lemma copyChunks_fresh (chunks : list Float32Array) :
  forall (done : Float32Array) (n : nat),
    length (concat chunks) <= n ->
    copyChunks chunks (done ++ new_Float32Array n) (length done)
    = Some (done ++ concat chunks ++ new_Float32Array (n - length (concat chunks))).
Proof.
  induction chunks as [|c chunks IH]; intros done n Hfit; simpl in *.
  - now rewrite Nat.sub_0_r.
  - rewrite length_app in Hfit.
    rewrite Float32Array_set_fresh by lia.
    rewrite <- length_app, IH by lia.
    rewrite length_app, <- !app_assoc.
    now rewrite Nat.sub_add_distr.
Qed.

Lemma combineAudio_concat (chunks : list Float32Array) :
  combineAudio chunks = Some (concat chunks).
Proof.
  unfold combineAudio.
  pose proof (copyChunks_fresh chunks [] (totalLength chunks)) as H.
  simpl in H. rewrite H by (rewrite totalLength_concat; lia).
  rewrite totalLength_concat, Nat.sub_diag. simpl.
  now rewrite app_nil_r.
Qed.

Lemma sendAudioChunk_flush (s : State) :
  minAudioFrames <= length (audioBuffer s) ->
  isProcessingAudio s = false ->
  session s = true ->
  sendAudioChunk s
  = (flushed s, [SendRealtimeInput (concat (audioBuffer s)); SetTimeout 50],
     returned).
Proof.
  intros Hlen Hguard Hsession. unfold sendAudioChunk.
  destruct (Nat.ltb_spec (length (audioBuffer s)) minAudioFrames); [lia|].
  rewrite Hguard. cbn [orb]. crunch.
  now rewrite combineAudio_concat, Hsession.
Qed.

Lemma sendAudioChunk_suppressed (s : State) :
  length (audioBuffer s) < minAudioFrames \/ isProcessingAudio s = true ->
  sendAudioChunk s = (s, [], returned).
Proof.
  intros H. unfold sendAudioChunk.
  destruct (Nat.ltb_spec (length (audioBuffer s)) minAudioFrames);
    [reflexivity|].
  destruct H as [H|H]; [lia|]. now rewrite H.
Qed.

Lemma sendAudioChunk_throws (s : State) :
  minAudioFrames <= length (audioBuffer s) ->
  isProcessingAudio s = false ->
  session s = false ->
  sendAudioChunk s = (set_isProcessingAudio true s, [], thrown).
Proof.
  intros Hlen Hguard Hsession. unfold sendAudioChunk.
  destruct (Nat.ltb_spec (length (audioBuffer s)) minAudioFrames); [lia|].
  rewrite Hguard. cbn [orb]. crunch.
  now rewrite combineAudio_concat, Hsession.
Qed.

(** C5: with a session, at least [minAudioFrames] (10) frames pending and
    the guard clear, sendAudioChunk makes exactly one transport call, whose
    payload is the concatenation of the pending frames in push order, and
    clears the pending list; with fewer pending frames it sends nothing and
    leaves the element, pending list included, as it was.  Without a session
    the same call raises TypeError instead: nothing is sent, the pending
    list is kept, and the guard is set with no timer queued to clear it.
    That is where a recording started without a session stands after twenty
    speech frames. *)
Theorem C5_flush_sends_with_a_session_and_throws_without (s : State) :
  minAudioFrames = 10
  /\ (minAudioFrames <= length (audioBuffer s) ->
      isProcessingAudio s = false ->
      session s = true ->
      sendAudioChunk s
      = (flushed s,
         [SendRealtimeInput (concat (audioBuffer s)); SetTimeout 50], returned)
      /\ sent [SendRealtimeInput (concat (audioBuffer s)); SetTimeout 50]
         = [concat (audioBuffer s)]
      /\ audioBuffer (flushed s) = [])
  /\ (length (audioBuffer s) < minAudioFrames ->
      sendAudioChunk s = (s, [], returned))
  /\ (minAudioFrames <= length (audioBuffer s) ->
      isProcessingAudio s = false ->
      session s = false ->
      sendAudioChunk s = (set_isProcessingAudio true s, [], thrown))
  /\ (let r := run (frames (replicate 20 speech)) unconnected in
      session unconnected = false
      /\ isRecording unconnected = true
      /\ sent (snd r) = []
      /\ audioBuffer (fst r) = replicate 20 speech16k
      /\ isProcessingAudio (fst r) = true
      /\ pendingTimeouts (fst r) = 0).
Proof.
  split; [reflexivity|]. split; [|split; [|split]].
  - intros Hlen Hguard Hsession.
    rewrite sendAudioChunk_flush by assumption. repeat split.
  - intros Hlen. apply sendAudioChunk_suppressed. now left.
  - intros Hlen Hguard Hsession. now apply sendAudioChunk_throws.
  - vm_compute. repeat split.
Qed.

Lemma C5_flush_witness :
  sendAudioChunk spoken
  = (flushed spoken,
     [SendRealtimeInput (concat (audioBuffer spoken)); SetTimeout 50], returned).
Proof.
  assert (minAudioFrames <= length (audioBuffer spoken)) as Hlen
    by (vm_compute; lia).
  assert (isProcessingAudio spoken = false) as Hguard
    by (vm_compute; reflexivity).
  assert (session spoken = true) as Hsession by (vm_compute; reflexivity).
  destruct (C5_flush_sends_with_a_session_and_throws_without spoken)
    as (_ & Hflush & _).
  exact (proj1 (Hflush Hlen Hguard Hsession)).
Defined.

(** ** Resampler *)

Lemma foldl_insert_length {A} (g : nat -> A) (l : list nat) :
  forall init : list A,
    length (foldl (fun out i => <[ i := g i ]> out) init l) = length init.
Proof.
  induction l as [|i l IH]; intros init; simpl; [reflexivity|].
  now rewrite IH, length_insert.
Qed.

Lemma foldl_insert_lookup {A} (g : nat -> A) (init : list A) (k j : nat) :
  k <= length init ->
  foldl (fun out i => <[ i := g i ]> out) init (seq 0 k) !! j
  = if decide (j < k) then Some (g j) else init !! j.
Proof.
  induction k as [|k IH]; intros Hk.
  - simpl. destruct (decide (j < 0)); [lia|reflexivity].
  - rewrite seq_S, foldl_snoc. simpl.
    destruct (decide (k = j)) as [->|Hne].
    + rewrite list_lookup_insert_eq by (rewrite foldl_insert_length; lia).
      destruct (decide (j < S j)); [reflexivity|lia].
    + rewrite list_lookup_insert_ne by assumption.
      rewrite IH by lia.
      destruct (decide (j < k)), (decide (j < S k)); try lia; reflexivity.
Qed.




(** *** In binary64 *)

Lemma Binary64_resampleTo16kHz_other (input : list float) (rate : float)
    (n : nat) :
  (rate =? Binary64.outputSampleRate)%float = false ->
  let ratio := (rate / Binary64.outputSampleRate)%float in
  Binary64.toLength
    (Binary64.Math_floor (Binary64.of_nat (length input) / ratio)) = Some n ->
  exists output,
    Binary64.resampleTo16kHz input rate = Some output
    /\ length output = n
    /\ forall i, i < n ->
         output !! i
         = Some (Binary64.Math_fround (Binary64.resampledSample input ratio i)).
Proof.
  intros Hne ratio Hlen. unfold Binary64.resampleTo16kHz.
  rewrite Hne. fold ratio. unfold Binary64.new_Float32Array.
  rewrite Hlen. cbn [fmap option_fmap option_map].
  rewrite length_replicate. unfold Binary64.resampleStep.
  eexists. split; [reflexivity|]. split.
  - rewrite foldl_insert_length. apply length_replicate.
  - intros i Hi. rewrite foldl_insert_lookup by (rewrite length_replicate; lia).
    destruct (decide (i < n)); [reflexivity|lia].
Qed.

Lemma Binary64_resampledSample_interpolates (input : list float)
    (ratio : float) (i : nat) :
  let index := Binary64.Math_floor (Binary64.of_nat i * ratio) in
  Binary64.resampledSample input ratio i
  = Binary64.interpolatedSample input ratio i
  \/ exists sample,
       (index + 1 <? Binary64.of_nat (length input))%float = false
       /\ Binary64.element input index = Some sample
       /\ is_zero sample || is_nan sample = true
       /\ Binary64.resampledSample input ratio i = 0%float.
Proof.
  intros index. unfold Binary64.resampledSample, Binary64.interpolatedSample.
  fold index.
  destruct (index + 1 <? Binary64.of_nat (length input))%float eqn:Hupper;
    [left; reflexivity|].
  destruct (Binary64.element input index) as [sample|] eqn:Hlower;
    [|left; reflexivity].
  cbn [Binary64.orZero].
  destruct (is_zero sample || is_nan sample) eqn:Hfalsy; [right|left; reflexivity].
  exists sample. repeat split; assumption.
Qed.

(** The floor of the code is taken in binary64: for 33 samples at 35200 Hz
    the quotient 33 / 2.2 rounds below 15 and the output has 14 samples,
    where the same formula over the rationals gives 15. *)
Lemma Binary64_floor_below_exact :
  length <$> Binary64.resampleTo16kHz (replicate 33 0.5%float) 35200 = Some 14
  /\ Z.to_nat (Qfloor (33 / (35200 / 16000))) = 15.
Proof. split; vm_compute; reflexivity. Qed.

(** C6: in the arithmetic of the code (binary64 numbers, float32 stores) the
    resampler returns its input at the target rate; at any other rate the
    output has [floor(inputLength / (rate / 16000))] samples, the allocation
    raising RangeError when that is negative or infinite, and sample [i] is
    the float32 nearest to the linear interpolation the specification
    describes ([Binary64.interpolatedSample]), except that a lower sample
    that is a negative zero or NaN falls back to 0 at the tail.  A 320-sample
    frame at 32000 Hz gives 160 samples and, the floor being that of the
    binary64 quotient, a 33-sample frame at 35200 Hz gives 14; seven samples
    at 44100 Hz give two, and three samples at 8000 Hz six. *)
Theorem C6_resample_identity_length_interpolation
    (input : list float) (rate : float) :
  ((rate =? Binary64.outputSampleRate)%float = true ->
   Binary64.resampleTo16kHz input rate = Some input)
  /\ ((rate =? Binary64.outputSampleRate)%float = false ->
      let ratio := (rate / Binary64.outputSampleRate)%float in
      let outputLength :=
        Binary64.Math_floor (Binary64.of_nat (length input) / ratio) in
      match Binary64.toLength outputLength with
      | Some n =>
          exists output,
            Binary64.resampleTo16kHz input rate = Some output
            /\ length output = n
            /\ forall i, i < n ->
                 output !! i
                 = Some (Binary64.Math_fround
                           (Binary64.interpolatedSample input ratio i))
                 \/ exists sample,
                      (Binary64.Math_floor (Binary64.of_nat i * ratio) + 1
                       <? Binary64.of_nat (length input))%float = false
                      /\ Binary64.element input
                           (Binary64.Math_floor (Binary64.of_nat i * ratio))
                         = Some sample
                      /\ is_zero sample || is_nan sample = true
                      /\ output !! i = Some 0%float
      | None => Binary64.resampleTo16kHz input rate = None
      end)
  /\ (length input = 320 ->
      exists output,
        Binary64.resampleTo16kHz input 32000 = Some output
        /\ length output = 160)
  /\ (length input = 33 ->
      exists output,
        Binary64.resampleTo16kHz input 35200 = Some output
        /\ length output = 14)
  /\ Binary64.resampleTo16kHz Binary64.sevenSamples 16000
     = Some Binary64.sevenSamples
  /\ Binary64.resampleTo16kHz Binary64.sevenSamples 44100
     = Some [0.5; 0x1.25999ap-1]%float
  /\ Binary64.resampleTo16kHz (take 3 Binary64.sevenSamples) 8000
     = Some [0.5; 0.375; 0.25; -0.25; -0.75; -0.75]%float
  /\ Binary64.resampleTo16kHz [0.5; -0]%float 8000
     = Some [0.5; 0.25; 0; 0]%float.
Proof.
  split; [|split; [|split; [|split]]].
  - intros Heq. unfold Binary64.resampleTo16kHz. now rewrite Heq.
  - intros Hne ratio outputLength.
    destruct (Binary64.toLength outputLength) as [n|] eqn:Hlen.
    + destruct (Binary64_resampleTo16kHz_other input rate n Hne Hlen)
        as (output & Hout & Hn & Hget).
      exists output. split; [exact Hout|]. split; [exact Hn|].
      intros i Hi. rewrite (Hget i Hi). fold ratio.
      destruct (Binary64_resampledSample_interpolates input ratio i)
        as [Hsame|(sample & Hupper & Hlower & Hfalsy & Hzero)].
      * left. now rewrite Hsame.
      * right. exists sample. rewrite Hzero. repeat split; assumption.
    + unfold Binary64.resampleTo16kHz. rewrite Hne.
      fold ratio. fold outputLength. unfold Binary64.new_Float32Array.
      now rewrite Hlen.
  - intros H320.
    destruct (Binary64_resampleTo16kHz_other input 32000 160)
      as (output & Hout & Hn & _).
    + reflexivity.
    + rewrite H320. vm_compute. reflexivity.
    + exists output. split; assumption.
  - intros H33.
    destruct (Binary64_resampleTo16kHz_other input 35200 14)
      as (output & Hout & Hn & _).
    + reflexivity.
    + rewrite H33. vm_compute. reflexivity.
    + exists output. split; assumption.
  - vm_compute. repeat split.
Qed.

Lemma C6_resample_witness :
  exists output,
    Binary64.resampleTo16kHz Binary64.sevenSamples 44100 = Some output
    /\ length output = 2
    /\ output !! 1 = Some 0x1.25999ap-1%float.
Proof.
  destruct (C6_resample_identity_length_interpolation
              Binary64.sevenSamples 44100) as (_ & Hother & _).
  assert ((44100 =? Binary64.outputSampleRate)%float = false) as Hne
    by reflexivity.
  specialize (Hother Hne).
  assert (Binary64.toLength
            (Binary64.Math_floor
               (Binary64.of_nat (length Binary64.sevenSamples)
                / (44100 / Binary64.outputSampleRate))) = Some 2) as Hlen
    by (vm_compute; reflexivity).
  cbv zeta in Hother. rewrite Hlen in Hother.
  destruct Hother as (output & Hout & Hn & Hget).
  exists output. split; [exact Hout|]. split; [exact Hn|].
  destruct (Hget 1) as [Hsample|(sample & Hupper & _)]; [lia| |].
  - rewrite Hsample. vm_compute. reflexivity.
  - vm_compute in Hupper. discriminate.
Defined.

(** ** Invariant of the reachable states *)

Lemma sendAudioChunk_guarded_cases (s : State) :
  sendAudioChunk s = (s, [], returned)
  \/ (minAudioFrames <= length (audioBuffer s)
      /\ isProcessingAudio s = false
      /\ session s = true
      /\ sendAudioChunk s
         = (flushed s,
            [SendRealtimeInput (concat (audioBuffer s)); SetTimeout 50],
            returned))
  \/ (minAudioFrames <= length (audioBuffer s)
      /\ isProcessingAudio s = false
      /\ session s = false
      /\ sendAudioChunk s = (set_isProcessingAudio true s, [], thrown)).
Proof.
  destruct (le_lt_dec minAudioFrames (length (audioBuffer s))) as [Hlen|Hlen].
  - destruct (isProcessingAudio s) eqn:Hguard.
    + left. apply sendAudioChunk_suppressed. now right.
    + right. destruct (session s) eqn:Hsession; [left|right].
      * repeat split; try assumption. now apply sendAudioChunk_flush.
      * repeat split; try assumption. now apply sendAudioChunk_throws.
  - left. apply sendAudioChunk_suppressed. now left.
Qed.

Lemma sendAudioChunk_cases (s : State) :
  sendAudioChunk s = (s, [], returned)
  \/ sendAudioChunk s
     = (flushed s, [SendRealtimeInput (concat (audioBuffer s)); SetTimeout 50],
        returned)
  \/ sendAudioChunk s = (set_isProcessingAudio true s, [], thrown).
Proof.
  destruct (sendAudioChunk_guarded_cases s)
    as [H|[(_ & _ & _ & H)|(_ & _ & _ & H)]]; auto.
Qed.

Lemma sendAudioChunk_outcomes (s : State) :
  ((length (audioBuffer s) < minAudioFrames \/ isProcessingAudio s = true)
   /\ sendAudioChunk s = (s, [], returned))
  \/ (minAudioFrames <= length (audioBuffer s)
      /\ isProcessingAudio s = false
      /\ session s = true
      /\ sendAudioChunk s
         = (flushed s,
            [SendRealtimeInput (concat (audioBuffer s)); SetTimeout 50],
            returned))
  \/ (minAudioFrames <= length (audioBuffer s)
      /\ isProcessingAudio s = false
      /\ session s = false
      /\ sendAudioChunk s = (set_isProcessingAudio true s, [], thrown)).
Proof.
  destruct (le_lt_dec minAudioFrames (length (audioBuffer s))) as [Hlen|Hlen].
  - destruct (isProcessingAudio s) eqn:Hguard.
    + left. split; [now right|]. apply sendAudioChunk_suppressed. now right.
    + right. destruct (session s) eqn:Hsession; [left|right].
      * repeat split; try assumption. now apply sendAudioChunk_flush.
      * repeat split; try assumption. now apply sendAudioChunk_throws.
  - left. split; [now left|]. apply sendAudioChunk_suppressed. now left.
Qed.

Lemma Set_delete_NoDup x l : NoDup l -> NoDup (Set_delete x l).
Proof. apply NoDup_filter. Qed.

Lemma Set_delete_Forall (P : nat -> Prop) x l :
  Forall P l -> Forall P (Set_delete x l).
Proof.
  rewrite !Forall_forall. intros Hl y Hy.
  apply list_elem_of_filter in Hy. now apply Hl.
Qed.

Lemma Set_add_fresh (n : nat) (l : list nat) :
  Forall (fun x => x < n) l -> Set_add n l = l ++ [n].
Proof.
  intros Hl. unfold Set_add.
  rewrite bool_decide_eq_false_2; [reflexivity|].
  intros Hin. rewrite Forall_forall in Hl. specialize (Hl _ Hin). lia.
Qed.

Lemma stopSources_spec (iterator : list nat) :
  forall live,
    NoDup iterator -> iterator ⊆ live ->
    snd (stopSources iterator live) = SourceStop <$> iterator
    /\ forall y, y ∈ fst (stopSources iterator live) <-> y ∈ live /\ y ∉ iterator.
Proof.
  induction iterator as [|x rest IH]; intros live Hnd Hsub; simpl.
  - split; [reflexivity|]. intros y. rewrite elem_of_nil. tauto.
  - apply NoDup_cons in Hnd as [Hx Hnd].
    rewrite bool_decide_eq_true_2 by (apply Hsub; left).
    destruct (IH (Set_delete x live) Hnd) as [Hout Hlive].
    { intros y Hy. apply list_elem_of_filter. split.
      - intros ->. contradiction.
      - apply Hsub. now right. }
    destruct (stopSources rest (Set_delete x live)) as [live' out].
    simpl in *. split; [now rewrite Hout|].
    intros y. rewrite Hlive. unfold Set_delete.
    rewrite list_elem_of_filter, not_elem_of_cons. tauto.
Qed.

Lemma stopSources_all (l : list nat) :
  NoDup l -> stopSources l l = ([], SourceStop <$> l).
Proof.
  intros Hnd. destruct (stopSources_spec l l Hnd) as [Hout Hlive]; [done|].
  destruct (stopSources l l) as [live out]. simpl in *. f_equal; [|exact Hout].
  apply elem_of_nil_inv. intros y Hy. apply Hlive in Hy. tauto.
Qed.

Lemma Set_add_NoDup (n : nat) (l : list nat) :
  NoDup l -> NoDup (Set_add n l).
Proof.
  intros Hl. unfold Set_add. destruct (bool_decide (n ∈ l)) eqn:E; [exact Hl|].
  apply bool_decide_eq_false_1 in E.
  apply NoDup_app. repeat split; [exact Hl| |apply NoDup_singleton].
  intros x Hx Hn. apply list_elem_of_singleton in Hn. now subst.
Qed.

Lemma Set_add_Forall (n : nat) (l : list nat) :
  Forall (fun x => x < n) l -> Forall (fun x => x < S n) (Set_add n l).
Proof.
  intros Hl. rewrite Set_add_fresh by exact Hl.
  apply Forall_app. split.
  - eapply Forall_impl; [exact Hl|]. intros; simpl in *; lia.
  - repeat constructor.
Qed.

Lemma stopSources_live (l live : list nat) (out : list effect) :
  NoDup l -> stopSources l l = (live, out) -> live = [].
Proof. intros Hnd. rewrite stopSources_all by exact Hnd. congruence. Qed.

(** Case analysis along the branches of a callback. *)
Ltac split_send :=
  match goal with
  | |- context [sendAudioChunk ?s] =>
      let E := fresh "Esend" in
      destruct (sendAudioChunk_cases s) as [E|[E|E]]; rewrite E; clear E
  end.

Ltac split_branch :=
  match goal with
  | |- context [match ?c with _ => _ end] =>
      lazymatch c with
      | context [match _ with _ => _ end] => fail
      | _ => destruct c eqn:?
      end
  end.

Ltac evaluate := repeat (first [split_send | split_branch]; crunch).

Ltac tidy :=
  repeat match goal with
  | H : negb _ = true |- _ => apply negb_true_iff in H
  | H : negb _ = false |- _ => apply negb_false_iff in H
  | H : _ && _ = true |- _ => apply andb_true_iff in H as [? ?]
  | H : Some _ = Some _ |- _ => injection H as H; try subst
  | H : bool_decide _ = true |- _ => apply bool_decide_eq_true_1 in H
  | H : bool_decide _ = false |- _ => apply bool_decide_eq_false_1 in H
  | H : ?x = ?x -> _ |- _ => specialize (H eq_refl)
  | H : (_, _) = (_, _) |- _ => injection H as ? ?; try subst
  | H : is_Some None |- _ => destruct H; discriminate
  | H : ~ is_Some (Some _) |- _ => destruct H; eauto
  | H : ?a = true -> _, H' : ?a = true |- _ => specialize (H H')
  | H : ?a = false -> _, H' : ?a = false |- _ => specialize (H H')
  end.

Ltac finish :=
  repeat match goal with
  | |- _ /\ _ => split
  | |- _ -> _ => intro
  | |- forall _, _ => intro
  end;
  tidy;
  try solve [ assumption | discriminate | congruence | eauto | lia
            | apply Qle_refl
            | match goal with H : _ |- _ => apply H; congruence end ].

Ltac simpl_fields_in H :=
  cbn [set_isRecording set_status set_error set_conversationState set_session
       set_audioContext set_nextStartTime set_mediaStream set_sources
       set_audioBuffer set_silenceCount set_isProcessingAudio
       set_createdSources set_pendingTimeouts set_pendingOpens flushed
       isRecording status error conversationState session audioContext
       nextStartTime mediaStream sources audioBuffer silenceCount
       isProcessingAudio createdSources pendingTimeouts pendingOpens
       fst snd app negb] in H.

Ltac split_send_guarded :=
  match goal with
  | |- context [sendAudioChunk ?s] =>
      let E := fresh "Esend" in
      let Hlen := fresh "Hlen" in
      let Hguard := fresh "Hguard" in
      let Hsession := fresh "Hsession" in
      destruct (sendAudioChunk_guarded_cases s)
        as [E|[(Hlen & Hguard & Hsession & E)|(Hlen & Hguard & Hsession & E)]];
      rewrite E; clear E;
      try simpl_fields_in Hlen; try simpl_fields_in Hguard;
      try simpl_fields_in Hsession
  end.

Lemma invariant_initial : invariant initial.
Proof.
  unfold invariant, initial; simpl.
  repeat split; try constructor; try discriminate.
Qed.

Lemma invariant_step (e : event) (s s' : State) (out : list effect) :
  invariant s -> step e s = (s', out) -> invariant s'.
Proof.
  intros (Hnd & Hlt & Hclk & Hidle & Hctx).
  destruct e; unfold_handlers; crunch; evaluate.
  all: intros [= <- <-]; unfold invariant; crunch.
  all: finish.
  all: try solve
    [ apply Set_delete_NoDup; assumption
    | apply Set_delete_Forall; assumption
    | apply Set_add_NoDup; assumption
    | apply Set_add_Forall; assumption
    | match goal with
      | H : stopSources ?l ?l = (?live, _) |- _ =>
          assert (live = []) as ->
            by (eapply stopSources_live; [|exact H];
                first [assumption | apply Set_add_NoDup; assumption]);
          constructor
      end
    | exfalso;
      match goal with
      | H : audioContext _ = None |- _ =>
          first [ destruct Hctx as [? Hsome]; congruence
                | destruct (Hidle H) as (Hb & _); rewrite Hb in *; discriminate ]
      end ].
  match goal with H : Qle_bool 0 _ = true |- _ => apply Qle_bool_iff in H end.
  specialize (Hclk a eq_refl). simpl. lra.
Qed.

Lemma reachable_invariant (s : State) : reachable s -> invariant s.
Proof.
  induction 1 as [|s e _ IH]; [apply invariant_initial|].
  eapply invariant_step; [exact IH|apply surjective_pairing].
Qed.

Lemma run_cons (e : event) (events : list event) (s : State) :
  run (e :: events) s
  = (fst (run events (fst (step e s))),
     snd (step e s) ++ snd (run events (fst (step e s)))).
Proof.
  simpl. destruct (step e s) as [s1 o1]. simpl.
  now destruct (run events s1).
Qed.

Lemma run_app (l1 l2 : list event) (s : State) :
  run (l1 ++ l2) s
  = (fst (run l2 (fst (run l1 s))),
     snd (run l1 s) ++ snd (run l2 (fst (run l1 s)))).
Proof.
  revert s; induction l1 as [|e l1 IH]; intros s.
  - simpl. now destruct (run l2 s).
  - rewrite <- app_comm_cons, !run_cons, IH. simpl.
    now rewrite app_assoc.
Qed.

Lemma reachable_run (events : list event) (s : State) :
  reachable s -> reachable (fst (run events s)).
Proof.
  revert s; induction events as [|e events IH]; intros s Hs.
  - exact Hs.
  - rewrite run_cons. simpl. apply IH. now constructor.
Qed.

(** ** While every start has a session *)

Ltac split_send_outcome :=
  match goal with
  | |- context [sendAudioChunk ?s] =>
      let E := fresh "Esend" in
      let Hsuppressed := fresh "Hsuppressed" in
      let Hlen := fresh "Hlen" in
      let Hguard := fresh "Hguard" in
      let Hsession := fresh "Hsession" in
      destruct (sendAudioChunk_outcomes s)
        as [(Hsuppressed & E)
           |[(Hlen & Hguard & Hsession & E)|(Hlen & Hguard & Hsession & E)]];
      rewrite E; clear E;
      try simpl_fields_in Hsuppressed;
      try simpl_fields_in Hlen; try simpl_fields_in Hguard;
      try simpl_fields_in Hsession
  end.

Lemma ingest_invariant_initial : ingest_invariant initial.
Proof. repeat split; discriminate. Qed.

Lemma ingest_invariant_step (e : event) (s : State) :
  ingest_invariant s -> connected e = true ->
  ingest_invariant (fst (step e s)).
Proof.
  intros (Hsession & Hidle & Htimer) Hconnected.
  destruct e; cbn [connected] in Hconnected; subst;
    unfold ingest_invariant; unfold_handlers; crunch.
  all: repeat (first [split_send_guarded | split_branch]; crunch).
  all: finish.
  all: exfalso; destruct (isRecording s) eqn:Hrec;
    [specialize (Hsession eq_refl); congruence
    |destruct (Hidle eq_refl) as (Hb & _); rewrite Hb in *; discriminate].
Qed.

Lemma online_invariant (s : State) : online s -> ingest_invariant s.
Proof.
  induction 1 as [|s e _ IH He]; [apply ingest_invariant_initial|].
  now apply ingest_invariant_step.
Qed.

Lemma online_reachable (s : State) : online s -> reachable s.
Proof. induction 1; now constructor. Qed.

Lemma online_run (events : list event) (s : State) :
  online s -> forallb connected events = true ->
  online (fst (run events s)).
Proof.
  revert s; induction events as [|e events IH]; intros s Hs Hall.
  - exact Hs.
  - cbn [forallb] in Hall. apply andb_true_iff in Hall as [He Hall].
    rewrite run_cons. simpl. apply IH; [|exact Hall]. now constructor.
Qed.


(** ** Playback scheduler *)

Lemma Set_add_elem (x : nat) (l : list nat) : x ∈ Set_add x l.
Proof.
  unfold Set_add. destruct (bool_decide (x ∈ l)) eqn:E.
  - now apply bool_decide_eq_true_1 in E.
  - apply elem_of_app. right. now left.
Qed.

Lemma onmessage_audio (s : State) (ctx : AudioContext) (duration : Q) :
  audioContext s = Some ctx ->
  step (ServerMessage (Some duration) false) s
  = fst (playAudio duration ctx s).
Proof.
  intros Hctx. cbv [step handler onmessage playAudio]. crunch. rewrite Hctx.
  crunch. reflexivity.
Qed.

Lemma playAudio_result (s : State) (ctx : AudioContext) (duration : Q) :
  let start := Qmax (nextStartTime s) (currentTime ctx) in
  started (snd (fst (playAudio duration ctx s))) = [(createdSources s, start)]
  /\ nextStartTime (fst (fst (playAudio duration ctx s))) = (start + duration)%Q
  /\ sources (fst (fst (playAudio duration ctx s)))
     = Set_add (createdSources s) (sources s).
Proof. cbv [playAudio]. crunch. repeat split. Qed.

Lemma stopSources_started (iterator : list nat) :
  forall live, started (snd (stopSources iterator live)) = [].
Proof.
  induction iterator as [|x rest IH]; intros live; simpl; [reflexivity|].
  destruct (bool_decide (x ∈ live)); [|apply IH].
  specialize (IH (Set_delete x live)).
  destruct (stopSources rest (Set_delete x live)). exact IH.
Qed.

Lemma onmessage_started (s : State) (ctx : AudioContext) (duration : Q)
    (interrupted : bool) :
  audioContext s = Some ctx ->
  started (snd (step (ServerMessage (Some duration) interrupted) s))
  = [(createdSources s, Qmax (nextStartTime s) (currentTime ctx))].
Proof.
  intros Hctx. cbv [step handler onmessage playAudio interrupt]. crunch.
  rewrite Hctx. crunch. destruct interrupted; [|reflexivity].
  match goal with
  | |- context [stopSources ?a ?b] =>
      pose proof (stopSources_started a b) as Hstarted;
      destruct (stopSources a b) as [live out]
  end.
  simpl in *. unfold started in *. cbn [omap list_omap].
  now rewrite Hstarted.
Qed.

(** The sums of the three-fragment scenario are the same in binary64, the
    arithmetic of JavaScript numbers: 0 + 1 + 0.5 + 0.2 is the double 1.7. *)
#[warnings="-inexact-float"]
Lemma threeSegments_binary64 :
  PrimFloat.eqb
    (PrimFloat.add (PrimFloat.add (PrimFloat.add 0 1) 0.5) 0.2)%float
    1.7%float = true.
Proof. reflexivity. Qed.

(** C1: a fragment that is enqueued starts at max(nextStartTime, clock),
    never before the clock, and leaves nextStartTime at that start plus its
    duration; fragments of 1.0 s, 0.5 s and 0.2 s arriving with the clock at
    0 start at 0, 1 and 1.5 and leave nextStartTime at 1.7. *)
Theorem C1_gapless_start_times (s : State) (ctx : AudioContext) (duration : Q)
    (Hctx : audioContext s = Some ctx) :
  let start := Qmax (nextStartTime s) (currentTime ctx) in
  let r := step (ServerMessage (Some duration) false) s in
  started (snd r) = [(createdSources s, start)]
  /\ nextStartTime (fst r) = (start + duration)%Q
  /\ createdSources s ∈ sources (fst r)
  /\ (currentTime ctx <= start)%Q
  /\ (forall interrupted,
        started (snd (step (ServerMessage (Some duration) interrupted) s))
        = [(createdSources s, start)])
  /\ audioContext recording = Some {| currentTime := 0; sampleRate := 48000 |}
  /\ started (snd (run threeSegments recording))
     = [(0, 0%Q); (1, 1%Q); (2, (3 # 2)%Q)]
  /\ nextStartTime (fst (run threeSegments recording)) = (17 # 10)%Q.
Proof.
  intros start r. subst r. rewrite (onmessage_audio s ctx duration Hctx).
  destruct (playAudio_result s ctx duration) as (Hstart & Hnext & Hsrc).
  split; [exact Hstart|]. split; [exact Hnext|].
  split; [rewrite Hsrc; apply Set_add_elem|].
  split; [apply Q.le_max_r|].
  split; [intros interrupted; now apply onmessage_started|].
  repeat split.
Qed.

Lemma C1_gapless_witness :
  started (snd (step (ServerMessage (Some 1%Q) false) recording)) = [(0, 0%Q)].
Proof.
  apply (C1_gapless_start_times recording
           {| currentTime := 0; sampleRate := 48000 |} 1%Q).
  reflexivity.
Defined.

Lemma interrupt_result (s : State) :
  NoDup (sources s) ->
  step (ServerMessage None true) s
  = (set_nextStartTime 0%Q (set_sources [] s), SourceStop <$> sources s).
Proof.
  intros Hnd. cbv [step handler onmessage interrupt]. crunch.
  now rewrite stopSources_all.
Qed.

Lemma stopped_stops (l : list nat) : stopped (SourceStop <$> l) = l.
Proof.
  unfold stopped. induction l as [|x l IH]; [reflexivity|].
  rewrite fmap_cons. cbn [omap list_omap]. now rewrite IH.
Qed.

(** C2: an interruption stops each playing source once, in the order they
    were added, empties the set and puts nextStartTime back to 0; repeated,
    or on an empty set, it makes no call and raises nothing, and the next
    fragment starts at the device clock: at 5.0 when the clock reads 5.0,
    not on the former timeline that ended at 1.7. *)
Theorem C2_interruption_stops_once_and_resets (s : State) (Hs : reachable s) :
  let r := step (ServerMessage None true) s in
  (snd r = SourceStop <$> sources s /\ stopped (snd r) = sources s
   /\ NoDup (sources s))
  /\ sources (fst r) = []
  /\ nextStartTime (fst r) = 0%Q
  /\ step (ServerMessage None true) (fst r) = (fst r, [])
  /\ (sources s = [] -> r = (set_nextStartTime 0%Q s, []))
  /\ (forall ctx duration, audioContext s = Some ctx ->
        exists t,
          started (snd (step (ServerMessage (Some duration) false) (fst r)))
          = [(createdSources s, t)] /\ (t == currentTime ctx)%Q)
  /\ (let cancelled :=
        fst (run [ServerMessage None true; ClockAdvance 5] afterThreeSegments) in
      nextStartTime afterThreeSegments = (17 # 10)%Q
      /\ stopped (snd (run [ServerMessage None true] afterThreeSegments))
         = [0; 1; 2]
      /\ sources cancelled = []
      /\ started (snd (step (ServerMessage (Some (1 # 4)%Q) false) cancelled))
         = [(3, 5%Q)]).
Proof.
  intros r. subst r.
  destruct (reachable_invariant s Hs) as (Hnd & _ & Hclk & _).
  rewrite (interrupt_result s Hnd). simpl_fields.
  split; [repeat split; [apply stopped_stops|exact Hnd]|].
  split; [reflexivity|]. split; [reflexivity|].
  split; [|split; [|split]].
  - rewrite interrupt_result by (simpl_fields; constructor). reflexivity.
  - intros Hempty. rewrite Hempty. destruct s; simpl in *. now subst.
  - intros ctx duration Hctx.
    rewrite (onmessage_audio _ ctx duration) by (simpl_fields; exact Hctx).
    cbv [playAudio]. crunch. eexists. split; [reflexivity|].
    apply Q.max_r. now apply Hclk.
  - repeat split.
Qed.

Lemma C2_interruption_witness :
  reachable afterThreeSegments
  /\ sources (fst (step (ServerMessage None true) afterThreeSegments)) = [].
Proof.
  assert (reachable afterThreeSegments) as H.
  { apply reachable_run. apply (reachable_step initial). constructor. }
  split; [exact H|].
  apply (C2_interruption_stops_once_and_resets afterThreeSegments H).
Defined.




(** ** Capture callback *)

Lemma set_silenceCount_twice (a b : nat) (s : State) :
  set_silenceCount a (set_silenceCount b s) = set_silenceCount a s.
Proof. reflexivity. Qed.

Lemma quiet_frame_idle (s : State) (pcmData : list Q) :
  isRecording s = true -> hasVoiceActivity pcmData = false ->
  (0 <? length (audioBuffer s)) && (maxSilenceFrames <=? S (silenceCount s)) = false ->
  step (AudioProcess pcmData) s = (set_silenceCount (S (silenceCount s)) s, []).
Proof.
  intros Hrec Hquiet Hcond. unfold_handlers. rewrite Hrec, Hquiet. crunch.
  now rewrite Hcond.
Qed.

Lemma quiet_frame_branch (s : State) (pcmData : list Q) :
  isRecording s = true -> hasVoiceActivity pcmData = false ->
  (0 <? length (audioBuffer s)) && (maxSilenceFrames <=? S (silenceCount s)) = true ->
  handler (AudioProcess pcmData) s
  = (sendAudioChunk >>
     assign (set_conversationState processing) >>
     updateStatus "Processing your input...")
      (set_silenceCount (S (silenceCount s)) s).
Proof.
  intros Hrec Hquiet Hcond. cbv [handler onaudioprocess].
  rewrite Hrec, Hquiet. cbn [negb].
  cbv [andThen assign whenever]. simpl_fields. rewrite Hcond.
  now destruct (sendAudioChunk _) as [[s1 o1] [|]].
Qed.

Lemma quiet_frame_retrigger (s : State) (pcmData : list Q) :
  isRecording s = true -> hasVoiceActivity pcmData = false ->
  0 < length (audioBuffer s) -> maxSilenceFrames <= S (silenceCount s) ->
  length (audioBuffer s) < minAudioFrames \/ isProcessingAudio s = true ->
  step (AudioProcess pcmData) s
  = (set_status "Processing your input..."
       (set_conversationState processing
          (set_silenceCount (S (silenceCount s)) s)),
     [UpdateStatus "Processing your input..."]).
Proof.
  intros Hrec Hquiet Hsome Hcount Hsuppressed. unfold step.
  rewrite quiet_frame_branch; try assumption.
  - unfold andThen at 1.
    rewrite sendAudioChunk_suppressed by (simpl_fields; exact Hsuppressed).
    reflexivity.
  - rewrite (proj2 (Nat.ltb_lt _ _) Hsome), (proj2 (Nat.leb_le _ _) Hcount).
    reflexivity.
Qed.

Lemma speech_frame (s : State) (ctx : AudioContext) (pcmData : list Q) :
  isRecording s = true -> hasVoiceActivity pcmData = true ->
  audioContext s = Some ctx ->
  let s1 := set_audioBuffer (audioBuffer s ++ [resampleTo16kHz pcmData (rateOf ctx)])
              (set_status "🔴 Capturing your voice..."
                 (set_conversationState listening (set_silenceCount 0 s))) in
  step (AudioProcess pcmData) s
  = if 20 <=? length (audioBuffer s1)
    then (fst (fst (sendAudioChunk s1)),
          UpdateStatus "🔴 Capturing your voice..."
            :: snd (fst (sendAudioChunk s1)))
    else (s1, [UpdateStatus "🔴 Capturing your voice..."]).
Proof.
  intros Hrec Hspeech Hctx s1. unfold_handlers. rewrite Hrec, Hspeech. crunch.
  rewrite Hctx. crunch. fold s1.
  change (audioBuffer s ++ [resampleTo16kHz pcmData (rateOf ctx)])
    with (audioBuffer s1).
  destruct (20 <=? length (audioBuffer s1)); [|reflexivity].
  now destruct (sendAudioChunk s1) as [[s2 o2] c].
Qed.

Lemma quiet_run_empty (l : list (list Q)) :
  forall s,
    isRecording s = true -> audioBuffer s = [] ->
    Forall (fun pcm => hasVoiceActivity pcm = false) l ->
    run (frames l) s = (set_silenceCount (silenceCount s + length l) s, []).
Proof.
  induction l as [|pcm l IH]; intros s Hrec Hbuf Hquiet.
  - simpl. rewrite Nat.add_0_r. now destruct s.
  - apply Forall_cons in Hquiet as [Hpcm Hquiet].
    unfold frames. rewrite fmap_cons, run_cons.
    rewrite quiet_frame_idle by (try assumption; now rewrite Hbuf).
    simpl_fields. fold (frames l). rewrite IH by assumption.
    simpl_fields. f_equal. rewrite set_silenceCount_twice. f_equal.
    simpl. lia.
Qed.

Lemma idle_run (l : list (list Q)) (s : State) :
  isRecording s = false -> run (frames l) s = (s, []).
Proof.
  intros Hrec. induction l as [|pcm l IH]; [reflexivity|].
  unfold frames. rewrite fmap_cons, run_cons.
  assert (step (AudioProcess pcm) s = (s, [])) as ->
    by (unfold_handlers; now rewrite Hrec).
  simpl_fields. fold (frames l). now rewrite IH.
Qed.

Lemma quiet_run_below (l : list (list Q)) :
  forall s,
    isRecording s = true ->
    Forall (fun pcm => hasVoiceActivity pcm = false) l ->
    silenceCount s + length l < maxSilenceFrames ->
    run (frames l) s = (set_silenceCount (silenceCount s + length l) s, []).
Proof.
  induction l as [|pcm l IH]; intros s Hrec Hquiet Hbelow.
  - simpl. rewrite Nat.add_0_r. now destruct s.
  - apply Forall_cons in Hquiet as [Hpcm Hquiet]. simpl in Hbelow.
    unfold frames. rewrite fmap_cons, run_cons.
    rewrite quiet_frame_idle; try assumption.
    + simpl_fields. fold (frames l).
      rewrite IH by (simpl_fields; try assumption; lia).
      simpl_fields. rewrite set_silenceCount_twice. do 2 f_equal. simpl. lia.
    + apply andb_false_iff. right. apply Nat.leb_gt. lia.
Qed.

Lemma quiet_frame_buffer (s : State) (pcmData : list Q) :
  hasVoiceActivity pcmData = false ->
  audioBuffer (fst (step (AudioProcess pcmData) s)) = audioBuffer s
  \/ audioBuffer (fst (step (AudioProcess pcmData) s)) = [].
Proof.
  intros Hquiet. unfold_handlers. rewrite Hquiet. crunch.
  evaluate; simpl_fields; auto.
Qed.

(** C9: a frame that the gate classifies as silence is never appended to the
    pending buffer (the buffer stays as it is, or is emptied by a flush); and
    from an empty buffer any run of such frames, five in particular, leaves
    the buffer empty and makes no call at all, so no flush and no send. *)
Theorem C9_quiet_frames_are_not_buffered (s : State) (pcmData : list Q)
    (Hquiet : hasVoiceActivity pcmData = false) :
  (audioBuffer (fst (step (AudioProcess pcmData) s)) = audioBuffer s
   \/ audioBuffer (fst (step (AudioProcess pcmData) s)) = [])
  /\ (forall l,
        audioBuffer s = [] ->
        Forall (fun pcm => hasVoiceActivity pcm = false) l ->
        audioBuffer (fst (run (frames l) s)) = []
        /\ snd (run (frames l) s) = [])
  /\ (hasVoiceActivity quiet = false
      /\ audioBuffer recording = []
      /\ audioBuffer (fst (run (frames (replicate 5 quiet)) recording)) = []
      /\ snd (run (frames (replicate 5 quiet)) recording) = []
      /\ silenceCount (fst (run (frames (replicate 5 quiet)) recording)) = 5).
Proof.
  split; [now apply quiet_frame_buffer|].
  split; [|vm_compute; repeat split].
  intros l Hbuf Hl. destruct (isRecording s) eqn:Hrec.
  - rewrite quiet_run_empty by assumption. simpl_fields. now split.
  - rewrite idle_run by assumption. now split.
Qed.

Lemma C9_quiet_frames_witness :
  audioBuffer (fst (run (frames [quiet; quiet]) recording)) = [].
Proof.
  assert (hasVoiceActivity quiet = false) as Hquiet
    by (vm_compute; reflexivity).
  destruct (C9_quiet_frames_are_not_buffered recording quiet Hquiet)
    as (_ & Hrun & _).
  assert (audioBuffer recording = []) as Hbuf by reflexivity.
  assert (Forall (fun pcm => hasVoiceActivity pcm = false) [quiet; quiet])
    as Hall by (apply (Forall_replicate _ 2); exact Hquiet).
  exact (proj1 (Hrun [quiet; quiet] Hbuf Hall)).
Defined.

Lemma quiet_frame_count (s : State) (pcmData : list Q) :
  isRecording s = true -> hasVoiceActivity pcmData = false ->
  silenceCount (fst (step (AudioProcess pcmData) s)) = S (silenceCount s).
Proof.
  intros Hrec Hquiet. unfold_handlers. rewrite Hrec, Hquiet. crunch.
  evaluate; reflexivity.
Qed.

Lemma speech_frame_count (s : State) (pcmData : list Q) :
  isRecording s = true -> hasVoiceActivity pcmData = true ->
  silenceCount (fst (step (AudioProcess pcmData) s)) = 0.
Proof.
  intros Hrec Hspeech. unfold_handlers. rewrite Hrec, Hspeech. crunch.
  evaluate; reflexivity.
Qed.

Lemma quiet_frame_trigger (s : State) (pcmData : list Q) :
  isRecording s = true -> hasVoiceActivity pcmData = false ->
  S (silenceCount s) = maxSilenceFrames ->
  minAudioFrames <= length (audioBuffer s) ->
  isProcessingAudio s = false ->
  session s = true ->
  step (AudioProcess pcmData) s
  = (set_status "Processing your input..."
       (set_conversationState processing
          (flushed (set_silenceCount maxSilenceFrames s))),
     [SendRealtimeInput (concat (audioBuffer s)); SetTimeout 50;
      UpdateStatus "Processing your input..."]).
Proof.
  intros Hrec Hquiet Hcount Hbuf Hguard Hsession. unfold step.
  rewrite quiet_frame_branch; try assumption.
  - unfold andThen at 1.
    rewrite Hcount, sendAudioChunk_flush by (simpl_fields; assumption).
    reflexivity.
  - rewrite Hcount, Nat.leb_refl, andb_true_r. apply Nat.ltb_lt.
    unfold minAudioFrames in Hbuf. lia.
Qed.

Lemma sent_app (o1 o2 : list effect) : sent (o1 ++ o2) = sent o1 ++ sent o2.
Proof. unfold sent. apply omap_app. Qed.

Lemma stoppedSpeaking_app (o1 o2 : list effect) :
  stoppedSpeaking (o1 ++ o2) = stoppedSpeaking o1 + stoppedSpeaking o2.
Proof.
  unfold stoppedSpeaking, statuses.
  now rewrite omap_app, filter_app, length_app.
Qed.

Lemma quiet_run_suppressed (l : list (list Q)) :
  forall s,
    isRecording s = true ->
    Forall (fun pcm => hasVoiceActivity pcm = false) l ->
    0 < length (audioBuffer s) ->
    length (audioBuffer s) < minAudioFrames \/ isProcessingAudio s = true ->
    sent (snd (run (frames l) s)) = []
    /\ stoppedSpeaking (snd (run (frames l) s))
       = (silenceCount s + length l - 29) - (silenceCount s - 29)
    /\ audioBuffer (fst (run (frames l) s)) = audioBuffer s
    /\ silenceCount (fst (run (frames l) s)) = silenceCount s + length l.
Proof.
  induction l as [|pcm l IH]; intros s Hrec Hquiet Hsome Hsuppressed.
  - cbn [frames fmap list_fmap run fst snd length].
    change (stoppedSpeaking []) with 0. repeat split; try reflexivity; lia.
  - apply Forall_cons in Hquiet as [Hpcm Hquiet].
    unfold frames. rewrite fmap_cons, run_cons. fold (frames l). cbn [fst snd].
    rewrite sent_app, stoppedSpeaking_app.
    destruct (le_lt_dec maxSilenceFrames (S (silenceCount s))) as [Hfull|Hbelow].
    + rewrite (quiet_frame_retrigger s pcm) by assumption.
      destruct (IH (set_status "Processing your input..."
                      (set_conversationState processing
                         (set_silenceCount (S (silenceCount s)) s))))
        as (Hsent & Hstopped & Hbuf & Hcount); try assumption.
      cbn [fst snd]. rewrite Hsent, Hstopped, Hbuf, Hcount.
      simpl_fields. unfold maxSilenceFrames in Hfull.
      repeat split; cbn [length]; try reflexivity; try lia.
      change (stoppedSpeaking [UpdateStatus "Processing your input..."]) with 1.
      lia.
    + rewrite (quiet_frame_idle s pcm); try assumption.
      * destruct (IH (set_silenceCount (S (silenceCount s)) s))
          as (Hsent & Hstopped & Hbuf & Hcount); try assumption.
        cbn [fst snd]. rewrite Hsent, Hstopped, Hbuf, Hcount.
        simpl_fields. unfold maxSilenceFrames in Hbelow.
        repeat split; cbn [length]; try reflexivity; try lia.
        change (stoppedSpeaking []) with 0. lia.
      * apply andb_false_iff. right. apply Nat.leb_gt. exact Hbelow.
Qed.

(** C3 as stated fails on the specification's own sequence, one speech frame
    (level 0.5) followed by silent frames (level 0.005): the silence branch
    announces the end of speech at the 30th silent frame and again at the
    31st, and ten more times over the next ten frames, while the single
    buffered frame is never sent. *)
Lemma C3_silence_branch_retriggers_counterexample :
  hasVoiceActivity speech = true /\ hasVoiceActivity quiet = false
  /\ stoppedSpeaking (snd (run (frames (speech :: replicate 29 quiet)) recording)) = 0
  /\ stoppedSpeaking (snd (run (frames (speech :: replicate 30 quiet)) recording)) = 1
  /\ stoppedSpeaking (snd (run (frames (speech :: replicate 31 quiet)) recording)) = 2
  /\ stoppedSpeaking (snd (run (frames (speech :: replicate 41 quiet)) recording)) = 12
  /\ sent (snd (run (frames (speech :: replicate 41 quiet)) recording)) = [].
Proof. vm_compute. repeat split. Qed.

(** C3, amended: while recording, a speech frame puts the silence count back
    to 0 and a silent frame adds 1 to it, and a run of silent frames makes
    no call before its 30th frame.  When at least [minAudioFrames] frames
    are buffered, no flush is in flight and the session is connected, a run
    that reaches the 30th frame sends the buffered audio exactly once and
    announces the end of speech exactly once, however many silent frames
    follow.  When frames are buffered but the flush is suppressed (fewer
    than [minAudioFrames] of them, or a flush in flight), nothing is sent,
    the buffer stays as it is, and the end of speech is announced on the
    30th silent frame and on every one after it. *)
Theorem C3_silence_flush_fires_once_when_flushable
    (s : State) (l : list (list Q))
    (Hrec : isRecording s = true)
    (Hquiet : Forall (fun pcm => hasVoiceActivity pcm = false) l)
    (Hcount : silenceCount s = 0) :
  maxSilenceFrames = 30
  /\ (forall s0 pcm,
        isRecording s0 = true ->
        (hasVoiceActivity pcm = true ->
         silenceCount (fst (step (AudioProcess pcm) s0)) = 0)
        /\ (hasVoiceActivity pcm = false ->
            silenceCount (fst (step (AudioProcess pcm) s0))
            = S (silenceCount s0)))
  /\ (length l < maxSilenceFrames ->
      run (frames l) s = (set_silenceCount (length l) s, []))
  /\ (minAudioFrames <= length (audioBuffer s) ->
      isProcessingAudio s = false ->
      session s = true ->
      maxSilenceFrames <= length l ->
      snd (run (frames l) s)
      = [SendRealtimeInput (concat (audioBuffer s)); SetTimeout 50;
         UpdateStatus "Processing your input..."]
      /\ sent (snd (run (frames l) s)) = [concat (audioBuffer s)]
      /\ stoppedSpeaking (snd (run (frames l) s)) = 1
      /\ audioBuffer (fst (run (frames l) s)) = []
      /\ silenceCount (fst (run (frames l) s)) = length l
      /\ conversationState (fst (run (frames l) s)) = processing)
  /\ (0 < length (audioBuffer s) ->
      length (audioBuffer s) < minAudioFrames \/ isProcessingAudio s = true ->
      sent (snd (run (frames l) s)) = []
      /\ stoppedSpeaking (snd (run (frames l) s))
         = length l - (maxSilenceFrames - 1)
      /\ audioBuffer (fst (run (frames l) s)) = audioBuffer s
      /\ silenceCount (fst (run (frames l) s)) = length l).
Proof.
  split; [reflexivity|]. split; [|split; [|split]].
  - intros s0 pcm Hrec0. split; intros Hpcm.
    + now apply speech_frame_count.
    + now apply quiet_frame_count.
  - intros Hlen. rewrite quiet_run_below; try assumption.
    + now rewrite Hcount.
    + rewrite Hcount. exact Hlen.
  - intros Hbuf Hguard Hsession Hlen. unfold maxSilenceFrames in Hlen.
    rewrite <- (take_drop 29 l) in Hquiet |- *.
    apply Forall_app in Hquiet as [Hbefore Hafter].
    destruct (drop 29 l) as [|pcm rest] eqn:Hdrop.
    { apply (f_equal length) in Hdrop. rewrite length_drop in Hdrop.
      simpl in Hdrop. lia. }
    apply Forall_cons in Hafter as [Hpcm Hrest].
    assert (length (take 29 l) = 29) as Htake by (rewrite length_take; lia).
    unfold frames. rewrite fmap_app, run_app. fold (frames (take 29 l)).
    rewrite (quiet_run_below (take 29 l) s)
      by (try assumption; rewrite Hcount, Htake; unfold maxSilenceFrames; lia).
    rewrite Hcount, Htake. simpl_fields. cbn [Nat.add].
    rewrite fmap_cons, run_cons.
    rewrite (quiet_frame_trigger (set_silenceCount 29 s) pcm)
      by (simpl_fields; assumption || reflexivity).
    simpl_fields. fold (frames rest).
    rewrite (quiet_run_empty rest)
      by (simpl_fields; assumption || reflexivity).
    simpl_fields. rewrite length_app, Htake. simpl.
    repeat split.
  - intros Hsome Hsuppressed.
    destruct (quiet_run_suppressed l s Hrec Hquiet Hsome Hsuppressed)
      as (Hsent & Hstopped & Hbuf & Hsilence).
    rewrite Hsent, Hstopped, Hbuf, Hsilence, Hcount.
    unfold maxSilenceFrames. repeat split; lia.
Qed.

Lemma C3_silence_flush_witness :
  sent (snd (run (frames (replicate 35 quiet)) spoken))
  = [concat (audioBuffer spoken)]
  /\ stoppedSpeaking
       (snd (run (frames (replicate 35 quiet))
               (fst (step (AudioProcess speech) recording))))
     = 6.
Proof.
  assert (Forall (fun pcm => hasVoiceActivity pcm = false) (replicate 35 quiet))
    as Hquiet by (apply Forall_replicate; vm_compute; reflexivity).
  split.
  - assert (isRecording spoken = true) as Hrec by (vm_compute; reflexivity).
    assert (silenceCount spoken = 0) as Hcount by (vm_compute; reflexivity).
    assert (minAudioFrames <= length (audioBuffer spoken)) as Hbuf
      by (vm_compute; lia).
    assert (isProcessingAudio spoken = false) as Hguard
      by (vm_compute; reflexivity).
    assert (session spoken = true) as Hsession by (vm_compute; reflexivity).
    assert (maxSilenceFrames <= length (replicate 35 quiet)) as Hlen
      by (vm_compute; lia).
    destruct (C3_silence_flush_fires_once_when_flushable
                spoken (replicate 35 quiet) Hrec Hquiet Hcount)
      as (_ & _ & _ & Hflush & _).
    destruct (Hflush Hbuf Hguard Hsession Hlen) as (_ & Hsent & _).
    exact Hsent.
  - pose (s := fst (step (AudioProcess speech) recording)).
    assert (isRecording s = true) as Hrec by (vm_compute; reflexivity).
    assert (silenceCount s = 0) as Hcount by (vm_compute; reflexivity).
    assert (0 < length (audioBuffer s)) as Hsome by (vm_compute; lia).
    assert (length (audioBuffer s) < minAudioFrames
            \/ isProcessingAudio s = true) as Hsuppressed
      by (left; vm_compute; lia).
    destruct (C3_silence_flush_fires_once_when_flushable
                s (replicate 35 quiet) Hrec Hquiet Hcount)
      as (_ & _ & _ & _ & Hretrigger).
    destruct (Hretrigger Hsome Hsuppressed) as (_ & Hstopped & _).
    exact Hstopped.
Defined.

(** ** In-flight guard *)

Lemma stopSources_sent (iterator : list nat) :
  forall live, sent (snd (stopSources iterator live)) = [].
Proof.
  induction iterator as [|x rest IH]; intros live; simpl; [reflexivity|].
  destruct (bool_decide (x ∈ live)); [|apply IH].
  specialize (IH (Set_delete x live)).
  destruct (stopSources rest (Set_delete x live)). exact IH.
Qed.

Lemma guarded_step_sends_nothing (e : event) (s : State) :
  isProcessingAudio s = true -> sent (snd (step e s)) = [].
Proof.
  intros Hguard. destruct e; unfold_handlers; crunch.
  all: repeat first
         [ rewrite sendAudioChunk_suppressed by (right; simpl_fields; exact Hguard)
         | split_branch ]; crunch.
  all: try reflexivity.
  all: try (rewrite sendAudioChunk_suppressed
              by (right; simpl_fields; exact Hguard); reflexivity).
  all: match goal with
       | H : stopSources ?a ?b = (_, ?o) |- _ =>
           pose proof (stopSources_sent a b) as Hsent;
           rewrite H in Hsent; exact Hsent
       end.
Qed.

Lemma guarded_frame (s : State) (ctx : AudioContext) (pcmData : list Q) :
  isRecording s = true -> audioContext s = Some ctx ->
  isProcessingAudio s = true ->
  let s' := fst (step (AudioProcess pcmData) s) in
  isRecording s' = true /\ audioContext s' = Some ctx
  /\ isProcessingAudio s' = true
  /\ audioBuffer s'
     = audioBuffer s
       ++ (if hasVoiceActivity pcmData
           then [resampleTo16kHz pcmData (rateOf ctx)] else []).
Proof.
  intros Hrec Hctx Hguard. unfold_handlers. rewrite Hrec. crunch.
  destruct (hasVoiceActivity pcmData); crunch.
  - rewrite Hctx. crunch.
    destruct (20 <=? _);
      [rewrite sendAudioChunk_suppressed by (right; simpl_fields; exact Hguard)|];
      simpl_fields; auto.
  - rewrite app_nil_r.
    destruct (_ && _);
      [rewrite sendAudioChunk_suppressed by (right; simpl_fields; exact Hguard)|];
      simpl_fields; auto.
Qed.

Lemma guarded_run (ctx : AudioContext) (l : list (list Q)) :
  forall s,
    isRecording s = true -> audioContext s = Some ctx ->
    isProcessingAudio s = true ->
    sent (snd (run (frames l) s)) = []
    /\ isProcessingAudio (fst (run (frames l) s)) = true
    /\ audioBuffer (fst (run (frames l) s))
       = audioBuffer s
         ++ ((fun pcm => resampleTo16kHz pcm (rateOf ctx))
               <$> filter (fun pcm => hasVoiceActivity pcm = true) l).
Proof.
  induction l as [|pcm l IH]; intros s Hrec Hctx Hguard.
  - simpl. rewrite app_nil_r. auto.
  - unfold frames. rewrite fmap_cons, run_cons. fold (frames l). simpl_fields.
    destruct (guarded_frame s ctx pcm Hrec Hctx Hguard)
      as (Hrec' & Hctx' & Hguard' & Hbuf').
    destruct (IH _ Hrec' Hctx' Hguard') as (Hsent & Hg & Hbuf).
    unfold sent in *. rewrite omap_app. fold (sent (snd (step (AudioProcess pcm) s))).
    rewrite guarded_step_sends_nothing by exact Hguard.
    split; [exact Hsent|]. split; [exact Hg|].
    rewrite Hbuf, Hbuf', filter_cons.
    destruct (hasVoiceActivity pcm) eqn:E.
    + destruct (decide (true = true)); [|contradiction]. now rewrite <- app_assoc.
    + destruct (decide (false = true)); [discriminate|]. now rewrite app_nil_r.
Qed.

(** C4: while the in-flight guard is set no callback whatsoever sends to the
    transport, and capture frames processed meanwhile keep the guard set and
    only append their speech frames to the pending buffer.  Forty speech
    frames in a row, with the timer not yet fired, therefore produce one send
    (of the first twenty) and keep the other twenty pending; once the timer
    has cleared the guard the next speech frame sends them. *)
Theorem C4_one_flush_in_flight (s : State) (ctx : AudioContext)
    (Hrec : isRecording s = true) (Hctx : audioContext s = Some ctx)
    (Hguard : isProcessingAudio s = true) :
  (forall e, sent (snd (step e s)) = [])
  /\ (forall l,
        sent (snd (run (frames l) s)) = []
        /\ isProcessingAudio (fst (run (frames l) s)) = true
        /\ audioBuffer (fst (run (frames l) s))
           = audioBuffer s
             ++ ((fun pcm => resampleTo16kHz pcm (rateOf ctx))
                   <$> filter (fun pcm => hasVoiceActivity pcm = true) l))
  /\ (let r := run (frames (replicate 40 speech)) recording in
      sent (snd r) = [concat (replicate 20 speech16k)]
      /\ isProcessingAudio (fst r) = true
      /\ pendingTimeouts (fst r) = 1
      /\ audioBuffer (fst r) = replicate 20 speech16k
      /\ isProcessingAudio (fst (step TimeoutFired (fst r))) = false
      /\ sent (snd (run [TimeoutFired; AudioProcess speech] (fst r)))
         = [concat (replicate 21 speech16k)]).
Proof.
  split; [|split].
  - intros e. now apply guarded_step_sends_nothing.
  - intros l. now apply guarded_run.
  - vm_compute. repeat split.
Qed.

Lemma C4_one_flush_witness :
  sent (snd (run (frames (replicate 20 speech))
               (fst (run (frames (replicate 20 speech)) recording)))) = [].
Proof.
  pose (s := fst (run (frames (replicate 20 speech)) recording)).
  assert (isRecording s = true) as Hrec by (vm_compute; reflexivity).
  assert (audioContext s = Some {| currentTime := 0; sampleRate := 48000 |})
    as Hctx by (vm_compute; reflexivity).
  assert (isProcessingAudio s = true) as Hguard by (vm_compute; reflexivity).
  destruct (C4_one_flush_in_flight s _ Hrec Hctx Hguard) as (_ & Hrun & _).
  exact (proj1 (Hrun (replicate 20 speech))).
Defined.

(** ** Stop *)

Lemma sent_flush (c : list Q) (rest : list effect) :
  sent (SendRealtimeInput c :: rest) = c :: sent rest.
Proof. reflexivity. Qed.

Lemma stopRecording_early (s : State) :
  negb (isRecording s) && negb (mediaStream s)
  && negb (bool_decide (is_Some (audioContext s))) = true ->
  isRecording s = false /\ audioContext s = None.
Proof.
  intros H. apply andb_true_iff in H as [H Hctx].
  apply andb_true_iff in H as [Hrec _].
  apply negb_true_iff in Hrec, Hctx. apply bool_decide_eq_false_1 in Hctx.
  split; [exact Hrec|].
  destruct (audioContext s); [|reflexivity]. exfalso. apply Hctx. eauto.
Qed.

(** C10: with a session, in every reachable state stopRecording returns
    with the pending buffer empty, the silence count at 0 and the in-flight
    guard clear; it sends the pending audio (once, concatenated) exactly
    when at least [minAudioFrames] frames were pending and the guard was
    clear, and sends nothing otherwise, the pending audio being dropped.
    Without a session the final send raises TypeError and stopRecording is
    left before its resets: stopping a recording that started without a
    session, twelve speech frames pending, sends nothing, keeps the twelve
    frames, the media stream and the state listening, and leaves the guard
    set with no timer queued. *)
Theorem C10_stop_leaves_ingest_clear_with_a_session
    (s : State) (Hs : reachable s) (Hsession : session s = true) :
  (let r := step StopRecording s in
   audioBuffer (fst r) = []
   /\ silenceCount (fst r) = 0
   /\ isProcessingAudio (fst r) = false
   /\ sent (snd r)
      = (if (minAudioFrames <=? length (audioBuffer s))
            && negb (isProcessingAudio s)
         then [concat (audioBuffer s)] else [])
   /\ (sent (snd r) <> []
       <-> minAudioFrames <= length (audioBuffer s)
           /\ isProcessingAudio s = false))
  /\ (let r := step StopRecording unsent in
      reachable unsent
      /\ session unsent = false
      /\ audioBuffer unsent = replicate 12 speech16k
      /\ isProcessingAudio unsent = false
      /\ snd (handler StopRecording unsent) = thrown
      /\ sent (snd r) = []
      /\ audioBuffer (fst r) = replicate 12 speech16k
      /\ isProcessingAudio (fst r) = true
      /\ pendingTimeouts (fst r) = 0
      /\ isRecording (fst r) = false
      /\ mediaStream (fst r) = true
      /\ conversationState (fst r) = listening).
Proof.
  split.
  - intros r.
    assert (audioBuffer (fst r) = [] /\ silenceCount (fst r) = 0
            /\ isProcessingAudio (fst r) = false
            /\ sent (snd r)
               = (if (minAudioFrames <=? length (audioBuffer s))
                     && negb (isProcessingAudio s)
                  then [concat (audioBuffer s)] else []))
      as (H1 & H2 & H3 & H4).
    { subst r. destruct (reachable_invariant s Hs) as (_ & _ & _ & Hidle & _).
      unfold_handlers.
      destruct (negb (isRecording s) && negb (mediaStream s)
                && negb (bool_decide (is_Some (audioContext s)))) eqn:Hearly.
      - apply stopRecording_early in Hearly as [_ Hnone].
        destruct (Hidle Hnone) as (Hb & Hc & Hg).
        simpl_fields. rewrite Hb, Hg. repeat split; assumption.
      - crunch.
        destruct (le_lt_dec minAudioFrames (length (audioBuffer s))) as [Hlen|Hlen].
        + assert ((0 <? length (audioBuffer s)) = true) as ->
            by (apply Nat.ltb_lt; unfold minAudioFrames in Hlen; lia).
          rewrite (proj2 (Nat.leb_le _ _) Hlen).
          destruct (isProcessingAudio s) eqn:Hguard.
          * rewrite sendAudioChunk_suppressed by (right; simpl_fields; exact Hguard).
            repeat split.
          * rewrite sendAudioChunk_flush by (simpl_fields; assumption).
            repeat split.
        + rewrite (proj2 (Nat.leb_gt _ _) Hlen).
          destruct (0 <? length (audioBuffer s));
            [rewrite sendAudioChunk_suppressed by (left; simpl_fields; exact Hlen)|];
            repeat split. }
    do 4 (split; [assumption|]). rewrite H4. split.
    + intros Hsent.
      destruct (minAudioFrames <=? length (audioBuffer s)) eqn:E;
        [|now simpl in Hsent].
      destruct (isProcessingAudio s); [now simpl in Hsent|].
      split; [now apply Nat.leb_le|reflexivity].
    + intros [Hlen Hguard]. rewrite Hguard, (proj2 (Nat.leb_le _ _) Hlen).
      discriminate.
  - split.
    + apply reachable_run. apply (reachable_step initial). constructor.
    + vm_compute. repeat split.
Qed.

Lemma C10_stop_witness :
  reachable spoken
  /\ audioBuffer (fst (step StopRecording spoken)) = []
  /\ sent (snd (step StopRecording spoken)) = [concat (replicate 12 speech16k)].
Proof.
  assert (reachable spoken) as H.
  { apply reachable_run. apply (reachable_step initial). constructor. }
  assert (session spoken = true) as Hsession by (vm_compute; reflexivity).
  destruct (C10_stop_leaves_ingest_clear_with_a_session spoken H Hsession)
    as ((Hbuf & _ & _ & Hsent & _) & _).
  split; [exact H|]. split; [exact Hbuf|].
  rewrite Hsent. vm_compute. reflexivity.
Defined.

(** ** Level and gate *)

(** The gate decided on squares agrees with the comparison of the level
    [sqrt(meanSquare)] against the threshold, for any level that is the
    non-negative root. *)
Lemma hasVoiceActivity_level (pcmData : list Q) (level : Q) :
  (0 <= level)%Q -> (level * level == meanSquare pcmData)%Q ->
  hasVoiceActivity pcmData = true <-> (silenceThreshold < level)%Q.
Proof.
  intros Hlevel Hsquare. unfold hasVoiceActivity.
  rewrite negb_true_iff, <- not_true_iff_false, Qle_bool_iff, <- Hsquare.
  assert (0 <= silenceThreshold)%Q as Hthreshold by discriminate.
  split; intros H; nra.
Qed.

(** ** Conversation state *)

(** C8 as stated fails: with a fragment playing (responding), a speech frame
    from the microphone takes the element to listening, and a fragment that
    arrives after playback drained takes it from waiting to responding;
    neither is one of the listed transitions. *)
Lemma C8_unlisted_transition_counterexample :
  exists s e,
    reachable s
    /\ s = fst (step (ServerMessage (Some 1%Q) false) recording)
    /\ e = AudioProcess speech
    /\ conversationState s = responding
    /\ conversationState (fst (step e s)) = listening
    /\ listedTransition responding listening = false
    /\ visited [ServerMessage (Some 1%Q) false; SourceEnded 0;
                ServerMessage (Some 1%Q) false] recording
       = [responding; waiting; responding]
    /\ listedTransition waiting responding = false.
Proof.
  exists (fst (step (ServerMessage (Some 1%Q) false) recording)).
  exists (AudioProcess speech).
  split; [|vm_compute; repeat split].
  apply (reachable_step recording). apply (reachable_step initial). constructor.
Qed.

(** No callback reads the conversation state: started from any other
    conversation state [c], a step either leaves both runs where they were
    or assigns both the same state, one of those of its event. *)
Lemma conversationState_not_read (e : event) (s : State) (c : ConversationState) :
  let a := conversationState (fst (step e s)) in
  let b := conversationState (fst (step e (set_conversationState c s))) in
  (a = conversationState s /\ b = c) \/ (a = b /\ a ∈ assignedBy e).
Proof.
  intros a b. subst a b.
  destruct e; unfold assignedBy; unfold_handlers; crunch.
  all: repeat (first [split_send_outcome | split_branch]; crunch).
  all: try (left; split; reflexivity).
  all: try (right; split; [reflexivity|solve [repeat constructor]]).
  all: exfalso; tidy.
  all: try discriminate.
  all: try congruence.
  all: try match goal with
       | H : ~ is_Some ?c, E : ?c = Some _ |- _ =>
           apply H; rewrite E; eexists; reflexivity
       end.
  all: match goal with
       | H : _ \/ _ |- _ => destruct H
       end; try lia; congruence.
Qed.

(** C8, amended: every callback either leaves the conversation state alone
    or assigns the state fixed by the kind of event, whatever the state was:
    listening for a speech frame or a successful start, processing for the
    silence branch, a stop or a failed start, responding for an inbound audio
    fragment, waiting for the end of the last source, a session opening or a
    reset.  The four listed transitions are those of an uninterrupted turn:
    speech, thirty silent frames, a fragment, its end, speech again. *)
Theorem C8_callbacks_assign_the_state_of_their_event (e : event) (s : State) :
  (conversationState (fst (step e s)) = conversationState s
   \/ conversationState (fst (step e s)) ∈ assignedBy e)
  /\ (forall c,
        let a := conversationState (fst (step e s)) in
        let b := conversationState (fst (step e (set_conversationState c s))) in
        (a = conversationState s /\ b = c) \/ (a = b /\ a ∈ assignedBy e))
  /\ (conversationState spoken = listening
      /\ visited (frames (replicate 30 quiet)
                  ++ [ServerMessage (Some 1%Q) false; SourceEnded 0;
                      AudioProcess speech]) spoken
         = replicate 29 listening
           ++ [processing; responding; waiting; listening]).
Proof.
  split; [|split; [apply conversationState_not_read|]];
    [|vm_compute; split; reflexivity].
  destruct (conversationState_not_read e s (conversationState s))
    as [[Hsame _]|[_ Hassigned]]; [left|right]; assumption.
Qed.

(** ** More on the level meter *)

Lemma square_le_of_abs (x t : Q) : (Qabs x <= t -> x * x <= t * t)%Q.
Proof.
  intros H. apply Qabs_Qle_condition in H as [Hlo Hhi]. nra.
Qed.

Lemma square_gt_of_abs (x t : Q) : (0 <= t -> t < Qabs x -> t * t < x * x)%Q.
Proof.
  intros Ht H.
  destruct (Qlt_le_dec x 0) as [Hneg|Hpos].
  - rewrite Qabs_neg in H by (apply Qlt_le_weak; exact Hneg). nra.
  - rewrite Qabs_pos in H by exact Hpos. nra.
Qed.

Lemma sumSquares_le (t : Q) (l : list Q) :
  forall acc,
    Forall (fun x => (Qabs x <= t)%Q) l ->
    (foldl (fun sum x => sum + x * x) acc l
     <= acc + inject_Z (Z.of_nat (length l)) * (t * t))%Q.
Proof.
  induction l as [|x l IH]; intros acc Hall.
  - cbn [foldl length]. change (inject_Z (Z.of_nat 0)) with 0%Q. lra.
  - apply Forall_cons in Hall as [Hx Hall]. cbn [foldl].
    eapply Qle_trans; [apply IH; exact Hall|].
    apply square_le_of_abs in Hx.
    rewrite length_cons, Nat2Z.inj_succ, <- Z.add_1_r, inject_Z_plus.
    change (inject_Z 1) with 1%Q. nra.
Qed.

Lemma sumSquares_ge (t : Q) (l : list Q) :
  forall acc,
    Forall (fun x => (t * t < x * x)%Q) l ->
    (acc + inject_Z (Z.of_nat (length l)) * (t * t)
     <= foldl (fun sum x => sum + x * x) acc l)%Q.
Proof.
  induction l as [|x l IH]; intros acc Hall.
  - cbn [foldl length]. change (inject_Z (Z.of_nat 0)) with 0%Q. lra.
  - apply Forall_cons in Hall as [Hx Hall]. cbn [foldl].
    eapply Qle_trans; [|apply IH; exact Hall].
    rewrite length_cons, Nat2Z.inj_succ, <- Z.add_1_r, inject_Z_plus.
    change (inject_Z 1) with 1%Q. nra.
Qed.

(** X1: the gate follows the amplitude of the frame.  A frame none of whose
    samples exceeds the threshold in absolute value (the empty frame among
    them) is never classified as speech, and a non-empty frame all of whose
    samples exceed it always is. *)
Theorem level_gate_by_amplitude (pcmData : list Q) :
  (Forall (fun x => (Qabs x <= silenceThreshold)%Q) pcmData ->
   hasVoiceActivity pcmData = false)
  /\ (pcmData <> [] ->
      Forall (fun x => (silenceThreshold < Qabs x)%Q) pcmData ->
      hasVoiceActivity pcmData = true).
Proof.
  unfold hasVoiceActivity, meanSquare, sumSquares, lengthQ. split.
  - intros Hall. apply negb_false_iff, Qle_bool_iff.
    pose proof (sumSquares_le silenceThreshold pcmData 0 Hall) as Hsum.
    destruct pcmData as [|x l].
    + discriminate.
    + apply Qle_shift_div_r.
      * rewrite <- (Zlt_Qlt 0). simpl. lia.
      * lra.
  - intros Hne Hall. apply negb_true_iff, not_true_iff_false.
    rewrite Qle_bool_iff. apply Qlt_not_le.
    destruct pcmData as [|x l]; [contradiction|].
    apply Forall_cons in Hall as [Hx Hall].
    assert (0 <= silenceThreshold)%Q as Ht by discriminate.
    apply square_gt_of_abs in Hx; [|exact Ht].
    assert (Forall (fun x => (silenceThreshold * silenceThreshold < x * x)%Q) l)
      as Hall'.
    { eapply Forall_impl; [exact Hall|]. intros y Hy.
      now apply square_gt_of_abs. }
    pose proof (sumSquares_ge silenceThreshold l (0 + x * x) Hall') as Hsum.
    apply Qlt_shift_div_l.
    + rewrite <- (Zlt_Qlt 0). simpl. lia.
    + cbn [foldl]. 
      rewrite length_cons, Nat2Z.inj_succ, <- Z.add_1_r, inject_Z_plus.
      change (inject_Z 1) with 1%Q. nra.
Qed.

Lemma level_gate_witness :
  hasVoiceActivity (replicate 256 (1 # 200)%Q) = false
  /\ hasVoiceActivity (replicate 256 (-(1 # 2))%Q) = true.
Proof.
  split.
  - apply (level_gate_by_amplitude (replicate 256 (1 # 200)%Q)).
    apply Forall_replicate. discriminate.
  - apply (level_gate_by_amplitude (replicate 256 (-(1 # 2))%Q)).
    + discriminate.
    + apply Forall_replicate. reflexivity.
Defined.

(** ** More on the resampler *)














(** ** Nothing captured is lost or reordered *)

Ltac stopped_sends_nothing :=
  repeat match goal with
  | H : stopSources ?a ?b = (_, ?o) |- _ =>
      let Hs := fresh "Hsent" in
      pose proof (stopSources_sent a b) as Hs;
      rewrite H in Hs; cbn [snd] in Hs; unfold sent in Hs;
      revert H
  end; intros.

Lemma capturing_step (e : event) (s : State) (ctx : AudioContext) :
  isRecording s = true -> audioContext s = Some ctx ->
  keepsCapturing e = true ->
  isRecording (fst (step e s)) = true
  /\ (exists ctx', audioContext (fst (step e s)) = Some ctx'
                   /\ sampleRate ctx' = sampleRate ctx)
  /\ concat (sent (snd (step e s))) ++ concat (audioBuffer (fst (step e s)))
     = concat (audioBuffer s) ++ concat (captured ctx e).
Proof.
  intros Hrec Hctx Hkeep.
  destruct e; try discriminate Hkeep; unfold captured;
    unfold_handlers; crunch; rewrite ?Hrec, ?Hctx; crunch; evaluate.
  all: rewrite ?Hrec, ?Hctx; crunch.
  all: split; [reflexivity|split;
         [eexists; split; [eassumption || reflexivity|reflexivity]|]].
  all: stopped_sends_nothing.
  all: unfold sent; cbn [omap list_omap]; rewrite ?Hsent.
  all: rewrite ?concat_app; cbn [concat app]; rewrite ?app_nil_r.
  all: reflexivity.
Qed.

(** X5: while recording goes on (no stop, no reset), whatever else happens
    in between, the chunks sent so far followed by the frames still pending
    are exactly the frames pending at the beginning followed by the
    resampled speech frames, in the order they were captured: nothing is
    lost, duplicated or reordered. *)
Theorem capture_is_lossless_and_ordered
    (s : State) (ctx : AudioContext) (events : list event)
    (Hrec : isRecording s = true) (Hctx : audioContext s = Some ctx)
    (Hkeep : forallb keepsCapturing events = true) :
  isRecording (fst (run events s)) = true
  /\ (exists ctx', audioContext (fst (run events s)) = Some ctx'
                   /\ sampleRate ctx' = sampleRate ctx)
  /\ concat (sent (snd (run events s)))
     ++ concat (audioBuffer (fst (run events s)))
     = concat (audioBuffer s) ++ concat (concat (captured ctx <$> events)).
Proof.
  revert s ctx Hrec Hctx.
  induction events as [|e events IH]; intros s ctx Hrec Hctx.
  - simpl. rewrite app_nil_r. eauto.
  - cbn [forallb] in Hkeep. apply andb_true_iff in Hkeep as [He Hkeep].
    destruct (capturing_step e s ctx Hrec Hctx He)
      as (Hrec' & (ctx' & Hctx' & Hrate) & Hstep).
    destruct (IH Hkeep _ ctx' Hrec' Hctx')
      as (Hrec'' & (ctx'' & Hctx'' & Hrate') & Hrun).
    rewrite run_cons. simpl_fields.
    split; [exact Hrec''|]. split; [exists ctx''; split; congruence|].
    rewrite sent_app, concat_app, <- app_assoc, Hrun.
    assert (captured ctx' <$> events = captured ctx <$> events) as ->.
    { apply list_fmap_ext. intros _ e' _. unfold captured, rateOf.
      now rewrite Hrate. }
    rewrite app_assoc, Hstep, fmap_cons. cbn [concat].
    now rewrite concat_app, app_assoc.
Qed.

Lemma capture_lossless_witness :
  concat (sent (snd (run (frames (replicate 25 speech) ++ [TimeoutFired])
                       recording)))
  ++ concat (audioBuffer
               (fst (run (frames (replicate 25 speech) ++ [TimeoutFired])
                       recording)))
  = concat (audioBuffer recording)
    ++ concat (concat (captured {| currentTime := 0; sampleRate := 48000 |}
                         <$> (frames (replicate 25 speech) ++ [TimeoutFired]))).
Proof.
  assert (isRecording recording = true) as Hrec by reflexivity.
  assert (audioContext recording
          = Some {| currentTime := 0; sampleRate := 48000 |}) as Hctx
    by reflexivity.
  assert (forallb keepsCapturing
            (frames (replicate 25 speech) ++ [TimeoutFired]) = true) as Hkeep
    by reflexivity.
  destruct (capture_is_lossless_and_ordered recording _ _ Hrec Hctx Hkeep)
    as (_ & _ & Hall).
  exact Hall.
Defined.

(** X6: a callback sends at most one chunk, and only with the guard clear;
    the chunk is the concatenation of at least [minAudioFrames] pending
    frames, namely the buffer as it was or with the frame just captured, and
    the guard is set afterwards unless the callback was a stop. *)
Theorem each_callback_sends_at_most_one_full_chunk (e : event) (s : State) :
  sent (snd (step e s)) = []
  \/ exists pending,
       sent (snd (step e s)) = [concat pending]
       /\ minAudioFrames <= length pending
       /\ isProcessingAudio s = false
       /\ (isProcessingAudio (fst (step e s)) = true \/ e = StopRecording
           \/ exists rate connects message,
                e = StartRecording rate connects (Some message))
       /\ (pending = audioBuffer s
           \/ exists frame, pending = audioBuffer s ++ [frame]).
Proof.
  destruct e; unfold_handlers; crunch.
  all: repeat (first [split_send_guarded | split_branch]; crunch).
  all: stopped_sends_nothing.
  all: unfold sent; cbn [omap list_omap]; rewrite ?Hsent.
  all: try (left; reflexivity).
  all: right; eexists; split; [reflexivity|].
  all: split; [eassumption|]. 
  all: split; [assumption|].
  all: split; [first [left; reflexivity | right; left; reflexivity
                     | right; right; do 3 eexists; reflexivity]|].
  all: first [left; reflexivity | right; eexists; reflexivity].
Qed.

(** ** The guard and its timer *)

(** X7: as long as recording never started without a session, the
    in-flight guard cannot stay set for ever: in every state reached that
    way where it is set a timer callback is queued, and that callback clears
    it without sending or touching the pending frames. *)
Theorem guard_is_always_released (s : State) (Hs : online s)
    (Hguard : isProcessingAudio s = true) :
  0 < pendingTimeouts s
  /\ isProcessingAudio (fst (step TimeoutFired s)) = false
  /\ snd (step TimeoutFired s) = []
  /\ audioBuffer (fst (step TimeoutFired s)) = audioBuffer s.
Proof.
  destruct (online_invariant s Hs) as (_ & _ & Hqueued).
  pose proof (Hqueued Hguard) as Htimer.
  split; [exact Htimer|]. cbv [step handler timeoutFired].
  destruct (pendingTimeouts s); [lia|]. repeat split.
Qed.

Lemma guard_released_witness :
  isProcessingAudio
    (fst (step TimeoutFired
            (fst (run (frames (replicate 20 speech)) recording)))) = false.
Proof.
  assert (online (fst (run (frames (replicate 20 speech)) recording))) as Hs.
  { apply online_run; [|reflexivity].
    apply (online_step initial); [constructor|reflexivity]. }
  assert (isProcessingAudio (fst (run (frames (replicate 20 speech)) recording))
          = true) as Hguard by (vm_compute; reflexivity).
  destruct (guard_is_always_released _ Hs Hguard) as (_ & Hclear & _).
  exact Hclear.
Defined.

(** ** Between recordings *)

Lemma idle_step (e : event) (s : State) :
  isRecording s = false -> audioBuffer s = [] -> notStart e = true ->
  isRecording (fst (step e s)) = false
  /\ audioBuffer (fst (step e s)) = []
  /\ sent (snd (step e s)) = [].
Proof.
  intros Hrec Hbuf Hnot.
  destruct e; try discriminate Hnot; unfold_handlers; crunch;
    rewrite ?Hrec, ?Hbuf; crunch; evaluate.
  all: rewrite ?Hrec, ?Hbuf; crunch.
  all: stopped_sends_nothing.
  all: unfold sent; cbn [omap list_omap]; rewrite ?Hsent.
  all: repeat split; try assumption; try reflexivity.
  all: discriminate.
Qed.

Lemma idle_events (events : list event) :
  forall s,
    isRecording s = false -> audioBuffer s = [] ->
    forallb notStart events = true ->
    isRecording (fst (run events s)) = false
    /\ audioBuffer (fst (run events s)) = []
    /\ sent (snd (run events s)) = [].
Proof.
  induction events as [|e events IH]; intros s Hrec Hbuf Hnot.
  - simpl. auto.
  - cbn [forallb] in Hnot. apply andb_true_iff in Hnot as [He Hnot].
    destruct (idle_step e s Hrec Hbuf He) as (Hrec' & Hbuf' & Hsent').
    destruct (IH _ Hrec' Hbuf' Hnot) as (Hrec'' & Hbuf'' & Hsent'').
    rewrite run_cons. simpl_fields. rewrite sent_app, Hsent', Hsent''.
    auto.
Qed.

Lemma stop_leaves_idle (s : State) :
  reachable s -> session s = true ->
  isRecording (fst (step StopRecording s)) = false
  /\ audioBuffer (fst (step StopRecording s)) = [].
Proof.
  intros Hs Hsession.
  destruct (reachable_invariant s Hs) as (_ & _ & _ & Hidle & _).
  unfold_handlers.
  destruct (negb (isRecording s) && negb (mediaStream s)
            && negb (bool_decide (is_Some (audioContext s)))) eqn:Hearly.
  - apply stopRecording_early in Hearly as [Hrec Hnone].
    destruct (Hidle Hnone) as (Hbuf & _). now split.
  - crunch. repeat (first [split_send_guarded | split_branch]; crunch).
    all: try (split; reflexivity).
    all: congruence.
Qed.

(** X8: after a stop that found a session nothing is buffered or sent until
    start is pressed again, whatever events arrive: capture callbacks still
    in flight, timer callbacks, server messages, another stop or a reset. *)
Theorem nothing_is_sent_between_recordings
    (s : State) (events : list event)
    (Hs : reachable s) (Hsession : session s = true)
    (Hnot : forallb notStart events = true) :
  let idle := fst (step StopRecording s) in
  isRecording idle = false
  /\ sent (snd (run events idle)) = []
  /\ audioBuffer (fst (run events idle)) = []
  /\ isRecording (fst (run events idle)) = false.
Proof.
  intros idle.
  destruct (stop_leaves_idle s Hs Hsession) as (Hrec & Hbuf).
  destruct (idle_events events idle Hrec Hbuf Hnot) as (H1 & H2 & H3).
  auto.
Qed.

Lemma nothing_sent_witness :
  sent (snd (run (frames (replicate 30 speech) ++ [TimeoutFired; StopRecording])
               (fst (step StopRecording spoken)))) = [].
Proof.
  assert (reachable spoken) as Hs.
  { apply reachable_run. apply (reachable_step initial). constructor. }
  assert (session spoken = true) as Hsession by (vm_compute; reflexivity).
  assert (forallb notStart
            (frames (replicate 30 speech) ++ [TimeoutFired; StopRecording])
          = true) as Hnot by reflexivity.
  destruct (nothing_is_sent_between_recordings spoken _ Hs Hsession Hnot)
    as (_ & Hsent & _).
  exact Hsent.
Defined.

(** ** The playback timeline between fragments *)

Lemma timeline_step (e : event) (s : State) (ctx : AudioContext) :
  keepsTimeline e = true -> audioContext s = Some ctx ->
  nextStartTime (fst (step e s)) = nextStartTime s
  /\ exists ctx', audioContext (fst (step e s)) = Some ctx'
                  /\ (currentTime ctx <= currentTime ctx')%Q.
Proof.
  intros Hkeep Hctx.
  destruct e as [| | | |[d|] [|]| | | | | |dt]; try discriminate Hkeep;
    unfold_handlers; crunch; rewrite ?Hctx; crunch; evaluate.
  all: rewrite ?Hctx; crunch.
  all: split; [reflexivity|eexists; split; [reflexivity|]].
  all: try apply Qle_refl.
  match goal with H : Qle_bool 0 dt = true |- _ => apply Qle_bool_iff in H end.
  simpl. lra.
Qed.

Lemma timeline_run (events : list event) :
  forall s ctx,
    forallb keepsTimeline events = true -> audioContext s = Some ctx ->
    nextStartTime (fst (run events s)) = nextStartTime s
    /\ exists ctx', audioContext (fst (run events s)) = Some ctx'
                    /\ (currentTime ctx <= currentTime ctx')%Q.
Proof.
  induction events as [|e events IH]; intros s ctx Hkeep Hctx.
  - simpl. split; [reflexivity|]. exists ctx. split; [exact Hctx|apply Qle_refl].
  - cbn [forallb] in Hkeep. apply andb_true_iff in Hkeep as [He Hkeep].
    destruct (timeline_step e s ctx He Hctx) as (Hnext & ctx1 & Hctx1 & Hle1).
    destruct (IH _ ctx1 Hkeep Hctx1) as (Hnext' & ctx2 & Hctx2 & Hle2).
    rewrite run_cons. simpl_fields. split; [congruence|].
    exists ctx2. split; [exact Hctx2|]. eapply Qle_trans; eassumption.
Qed.

(** X9: fragments never overlap.  Whatever capture, timer, clock or control
    events occur between two inbound fragments (no interruption, no start),
    the second starts no earlier than the first one's start plus duration:
    exactly there when the device clock has not passed that point, at the
    clock otherwise. *)
Theorem fragments_never_overlap
    (s : State) (ctx : AudioContext) (d1 d2 : Q) (between : list event)
    (interrupted : bool)
    (Hctx : audioContext s = Some ctx)
    (Hkeep : forallb keepsTimeline between = true) :
  let first := step (ServerMessage (Some d1) false) s in
  let later := fst (run between (fst first)) in
  let second := step (ServerMessage (Some d2) interrupted) later in
  exists t1 t2 ctx2,
    started (snd first) = [(createdSources s, t1)]
    /\ audioContext later = Some ctx2
    /\ started (snd second) = [(createdSources later, t2)]
    /\ (t1 + d1 <= t2)%Q
    /\ ((currentTime ctx2 <= t1 + d1)%Q -> (t2 == t1 + d1)%Q)
    /\ ((t1 + d1 <= currentTime ctx2)%Q -> (t2 == currentTime ctx2)%Q).
Proof.
  intros first later second. subst first later second.
  destruct (playAudio_result s ctx d1) as (Hstart & Hnext & _).
  assert (audioContext (fst (step (ServerMessage (Some d1) false) s)) = Some ctx)
    as Hctx1.
  { rewrite (onmessage_audio s ctx d1 Hctx). cbv [playAudio]. crunch.
    exact Hctx. }
  rewrite (onmessage_audio s ctx d1 Hctx) in *.
  destruct (timeline_run between _ ctx Hkeep Hctx1) as (Hkept & ctx2 & Hctx2 & _).
  exists (Qmax (nextStartTime s) (currentTime ctx)).
  exists (Qmax (Qmax (nextStartTime s) (currentTime ctx) + d1)
               (currentTime ctx2))%Q.
  exists ctx2.
  split; [exact Hstart|]. split; [exact Hctx2|].
  split. { rewrite (onmessage_started _ ctx2 d2 interrupted Hctx2).
           now rewrite Hkept, Hnext. }
  split; [apply Q.le_max_l|]. split; intros H.
  - now apply Q.max_l.
  - now apply Q.max_r.
Qed.

Lemma fragments_never_overlap_witness :
  exists t1 t2 ctx2,
    started (snd (step (ServerMessage (Some 1%Q) false) recording)) = [(0, t1)]
    /\ audioContext
         (fst (run [ClockAdvance (1 # 2); AudioProcess quiet]
                 (fst (step (ServerMessage (Some 1%Q) false) recording))))
       = Some ctx2
    /\ (t1 + 1 <= t2)%Q.
Proof.
  assert (audioContext recording
          = Some {| currentTime := 0; sampleRate := 48000 |}) as Hctx
    by reflexivity.
  assert (forallb keepsTimeline [ClockAdvance (1 # 2); AudioProcess quiet]
          = true) as Hkeep by reflexivity.
  destruct (fragments_never_overlap recording _ 1%Q (1 # 2)%Q _ false Hctx Hkeep)
    as (t1 & t2 & ctx2 & H1 & H2 & _ & H4 & _).
  exists t1, t2, ctx2. split; [exact H1|]. split; [exact H2|exact H4].
Defined.

(** X10: pressing start rewinds the playback timeline to the device clock
    while leaving the scheduled sources in place, so the next fragment starts
    at the clock; when fragments were scheduled beyond the clock it starts
    before the end of the timeline they built. *)
Theorem start_rewinds_the_timeline
    (s : State) (ctx : AudioContext) (rate : positive) (connects : bool)
    (micError : option string) (d : Q) (interrupted : bool)
    (Hrec : isRecording s = false) (Hctx : audioContext s = Some ctx) :
  let restarted := fst (step (StartRecording rate connects micError) s) in
  nextStartTime restarted = currentTime ctx
  /\ sources restarted = sources s
  /\ (exists t,
        started (snd (step (ServerMessage (Some d) interrupted) restarted))
        = [(createdSources s, t)]
        /\ (t == currentTime ctx)%Q)
  /\ ((currentTime ctx < nextStartTime s)%Q ->
      exists t,
        started (snd (step (ServerMessage (Some d) interrupted) restarted))
        = [(createdSources s, t)]
        /\ (t < nextStartTime s)%Q).
Proof.
  intros restarted.
  assert (nextStartTime restarted = currentTime ctx
          /\ sources restarted = sources s
          /\ audioContext restarted = Some ctx
          /\ createdSources restarted = createdSources s) as (Hn & Hs & Hc & Hk).
  { subst restarted. destruct s; simpl in *; subst.
    unfold_handlers; crunch; evaluate; tidy; repeat split. }
  assert (exists t,
        started (snd (step (ServerMessage (Some d) interrupted) restarted))
        = [(createdSources s, t)]
        /\ (t == currentTime ctx)%Q) as (t & Ht & Heq).
  { rewrite (onmessage_started _ ctx d interrupted Hc), Hn, Hk.
    eexists. split; [reflexivity|]. apply Q.max_l. apply Qle_refl. }
  split; [exact Hn|]. split; [exact Hs|].
  split; [exists t; split; assumption|].
  intros Hlt. exists t. split; [exact Ht|]. now rewrite Heq.
Qed.

Lemma start_rewinds_witness :
  exists t,
    started (snd (step (ServerMessage (Some (1 # 4)%Q) false)
                    (fst (step (StartRecording 48000 true None)
                            (fst (step StopRecording afterThreeSegments))))))
    = [(3, t)]
    /\ (t < nextStartTime (fst (step StopRecording afterThreeSegments)))%Q.
Proof.
  assert (isRecording (fst (step StopRecording afterThreeSegments)) = false)
    as Hrec by reflexivity.
  assert (audioContext (fst (step StopRecording afterThreeSegments))
          = Some {| currentTime := 0; sampleRate := 48000 |}) as Hctx
    by reflexivity.
  destruct (start_rewinds_the_timeline _ _ 48000%positive true None (1 # 4)%Q
              false Hrec Hctx) as (_ & _ & _ & Hoverlap).
  apply Hoverlap. reflexivity.
Defined.

(** ** Interruption and the end of playback *)

(** X11: a message that carries both audio and the interrupted flag starts
    the new fragment and stops it in the same step, together with every
    source that was playing; no source is left and the timeline is back at
    0. *)
Theorem interrupted_fragment_is_started_and_stopped
    (s : State) (ctx : AudioContext) (d : Q)
    (Hs : reachable s) (Hctx : audioContext s = Some ctx) :
  let r := step (ServerMessage (Some d) true) s in
  started (snd r)
  = [(createdSources s, Qmax (nextStartTime s) (currentTime ctx))]
  /\ stopped (snd r) = sources s ++ [createdSources s]
  /\ sources (fst r) = []
  /\ nextStartTime (fst r) = 0%Q
  /\ conversationState (fst r) = responding.
Proof.
  intros r. subst r.
  destruct (reachable_invariant s Hs) as (Hnd & Hlt & _).
  split; [now apply onmessage_started|].
  cbv [step handler onmessage playAudio interrupt]. crunch.
  rewrite Hctx. crunch.
  rewrite (Set_add_fresh _ _ Hlt).
  assert (NoDup (sources s ++ [createdSources s])) as Hnd'.
  { rewrite <- (Set_add_fresh _ _ Hlt). now apply Set_add_NoDup. }
  rewrite (stopSources_all _ Hnd'). crunch.
  unfold stopped. cbn [omap list_omap].
  fold (stopped (SourceStop <$> sources s ++ [createdSources s])).
  rewrite stopped_stops. repeat split.
Qed.

Lemma interrupted_fragment_witness :
  stopped (snd (step (ServerMessage (Some (1 # 4)%Q) true) afterThreeSegments))
  = sources afterThreeSegments ++ [createdSources afterThreeSegments].
Proof.
  assert (reachable afterThreeSegments) as Hs.
  { apply reachable_run. apply (reachable_step initial). constructor. }
  assert (audioContext afterThreeSegments
          = Some {| currentTime := 0; sampleRate := 48000 |}) as Hctx
    by reflexivity.
  destruct (interrupted_fragment_is_started_and_stopped
              afterThreeSegments _ (1 # 4)%Q Hs Hctx) as (_ & Hstop & _).
  exact Hstop.
Defined.

Lemma onended_result (s : State) (x : nat) :
  x < createdSources s ->
  sources (fst (step (SourceEnded x) s)) = Set_delete x (sources s)
  /\ conversationState (fst (step (SourceEnded x) s))
     = (if decide (Set_delete x (sources s) = [])
        then waiting else conversationState s)
  /\ nextStartTime (fst (step (SourceEnded x) s)) = nextStartTime s
  /\ createdSources (fst (step (SourceEnded x) s)) = createdSources s.
Proof.
  intros Hx. cbv [step handler onended].
  rewrite (proj2 (Nat.ltb_lt _ _) Hx). crunch.
  destruct (Set_delete x (sources s)) as [|y l] eqn:E; crunch;
    destruct (decide _); try discriminate; try contradiction; repeat split.
Qed.

Lemma filter_nothing_ended (l : list nat) :
  filter (fun y => y ∉ @nil nat) l = l.
Proof.
  induction l as [|x l IH]; [reflexivity|].
  rewrite filter_cons_True by apply not_elem_of_nil. now rewrite IH.
Qed.

Lemma drain_run (ended : list nat) :
  forall s,
    NoDup (sources s) ->
    Forall (fun x => x < createdSources s) ended ->
    sources (fst (run (SourceEnded <$> ended) s))
    = filter (fun y => y ∉ ended) (sources s)
    /\ (ended <> [] ->
        filter (fun y => y ∉ ended) (sources s) = [] ->
        conversationState (fst (run (SourceEnded <$> ended) s)) = waiting).
Proof.
  induction ended as [|x ended IH]; intros s Hnd Hlt.
  - simpl. split; [|contradiction].
    symmetry. apply filter_nothing_ended.
  - apply Forall_cons in Hlt as [Hx Hlt].
    destruct (onended_result s x Hx) as (Hsrc & Hconv & _ & Hcreated).
    rewrite fmap_cons, run_cons. simpl_fields.
    destruct (IH (fst (step (SourceEnded x) s))) as (Hsrc' & Hconv').
    { rewrite Hsrc. now apply Set_delete_NoDup. }
    { now rewrite Hcreated. }
    assert (filter (fun y => y ∉ ended) (Set_delete x (sources s))
            = filter (fun y => y ∉ x :: ended) (sources s)) as Hfilter.
    { unfold Set_delete. rewrite list_filter_filter.
      apply list_filter_iff. intros y. rewrite not_elem_of_cons. tauto. }
    rewrite Hsrc', Hsrc, Hfilter. split; [reflexivity|].
    intros _ Hempty. destruct ended as [|x' ended'].
    + rewrite fmap_nil. cbn [run skip fst]. rewrite Hconv.
      rewrite <- Hfilter in Hempty.
      rewrite filter_nothing_ended in Hempty.
      destruct (decide _); [reflexivity|contradiction].
    + apply Hconv'; [discriminate|]. now rewrite Hsrc, Hfilter.
Qed.

(** X12: once every playing source has ended, in whatever order, the set
    is empty and the conversation state is waiting; while more than one
    source is playing, the end of one of them leaves the state as it was. *)
Theorem playback_drains_to_waiting (s : State) (ended : list nat)
    (Hs : reachable s) (Hsome : sources s <> [])
    (Hall : ended ≡ₚ sources s) :
  sources (fst (run (SourceEnded <$> ended) s)) = []
  /\ conversationState (fst (run (SourceEnded <$> ended) s)) = waiting
  /\ (forall x, x ∈ sources s -> length (sources s) > 1 ->
        sources (fst (step (SourceEnded x) s)) <> []
        /\ conversationState (fst (step (SourceEnded x) s))
           = conversationState s).
Proof.
  destruct (reachable_invariant s Hs) as (Hnd & Hlt & _).
  assert (filter (fun y => y ∉ ended) (sources s) = []) as Hempty.
  { apply elem_of_nil_inv. intros y Hy. apply list_elem_of_filter in Hy.
    destruct Hy as [Hout Hin]. apply Hout. now rewrite Hall. }
  destruct (drain_run ended s Hnd) as (Hsrc & Hconv).
  { now rewrite Hall. }
  split; [now rewrite Hsrc|]. split.
  - apply Hconv; [|exact Hempty].
    intros ->. apply Permutation_nil_l in Hall. now symmetry in Hall.
  - intros x Hx Hmany.
    assert (x < createdSources s) as Hcreated
      by (rewrite Forall_forall in Hlt; now apply Hlt).
    destruct (onended_result s x Hcreated) as (Hsrc1 & Hconv1 & _).
    assert (Set_delete x (sources s) <> []) as Hleft.
    { intros Hnil. apply (f_equal length) in Hnil. simpl in Hnil.
      destruct (sources s) as [|a [|b l]] eqn:E; simpl in Hmany; try lia.
      apply NoDup_cons in Hnd as [Hab _].
      unfold Set_delete in Hnil. rewrite !filter_cons in Hnil.
      destruct (decide (a <> x)), (decide (b <> x)); simpl in Hnil; try lia.
      assert (a = x) as -> by (destruct (decide (a = x)); tauto).
      assert (b = x) as -> by (destruct (decide (b = x)); tauto).
      apply Hab. constructor. }
    rewrite Hsrc1, Hconv1. split; [exact Hleft|].
    destruct (decide _); [contradiction|reflexivity].
Qed.

Lemma playback_drains_witness :
  conversationState
    (fst (run (SourceEnded <$> [1; 2; 0]) afterThreeSegments)) = waiting.
Proof.
  assert (reachable afterThreeSegments) as Hs.
  { apply reachable_run. apply (reachable_step initial). constructor. }
  assert (sources afterThreeSegments <> []) as Hsome by discriminate.
  assert ([1; 2; 0] ≡ₚ sources afterThreeSegments) as Hall.
  { change (sources afterThreeSegments) with [0; 1; 2].
    symmetry. apply (Permutation_cons_append [1; 2] 0). }
  destruct (playback_drains_to_waiting afterThreeSegments [1; 2; 0]
              Hs Hsome Hall) as (_ & Hwaiting & _).
  exact Hwaiting.
Defined.

(** ** Starting a recording; batching of speech frames *)



(** X14: with a session and no flush in flight a speech frame is appended
    while fewer than 19 frames are pending, and the frame that brings the
    buffer to 20 (or beyond) sends everything pending, itself included, and
    sets the guard; either way fewer than 20 frames are pending
    afterwards. *)
Theorem speech_frames_are_sent_in_batches
    (s : State) (ctx : AudioContext) (pcmData : list Q)
    (Hrec : isRecording s = true) (Hctx : audioContext s = Some ctx)
    (Hspeech : hasVoiceActivity pcmData = true)
    (Hguard : isProcessingAudio s = false)
    (Hsession : session s = true) :
  let frame := resampleTo16kHz pcmData (rateOf ctx) in
  let r := step (AudioProcess pcmData) s in
  (length (audioBuffer s) < 19 ->
   audioBuffer (fst r) = audioBuffer s ++ [frame] /\ sent (snd r) = [])
  /\ (19 <= length (audioBuffer s) ->
      sent (snd r) = [concat (audioBuffer s ++ [frame])]
      /\ audioBuffer (fst r) = []
      /\ isProcessingAudio (fst r) = true)
  /\ length (audioBuffer (fst r)) < 20
  /\ silenceCount (fst r) = 0.
Proof.
  intros frame r. subst r.
  rewrite (speech_frame s ctx pcmData Hrec Hspeech Hctx). simpl_fields.
  fold frame. rewrite length_app. cbn [length].
  destruct (Nat.leb_spec 20 (length (audioBuffer s) + 1)) as [Hfull|Hroom].
  - rewrite sendAudioChunk_flush
      by (simpl_fields; rewrite ?length_app; cbn [length];
          unfold minAudioFrames; lia || assumption).
    simpl_fields. repeat split; try (intros; lia). simpl. lia.
  - simpl_fields. rewrite length_app. cbn [length].
    repeat split; try (intros; lia).
Qed.

Lemma speech_batches_witness :
  length (audioBuffer (fst (step (AudioProcess speech) spoken))) < 20.
Proof.
  assert (isRecording spoken = true) as Hrec by (vm_compute; reflexivity).
  assert (audioContext spoken
          = Some {| currentTime := 0; sampleRate := 48000 |}) as Hctx
    by (vm_compute; reflexivity).
  assert (hasVoiceActivity speech = true) as Hspeech
    by (vm_compute; reflexivity).
  assert (isProcessingAudio spoken = false) as Hguard
    by (vm_compute; reflexivity).
  assert (session spoken = true) as Hsession by (vm_compute; reflexivity).
  destruct (speech_frames_are_sent_in_batches spoken _ speech
              Hrec Hctx Hspeech Hguard Hsession) as (_ & _ & Hlen & _).
  exact Hlen.
Defined.

(** ** Without a session *)

Lemma offline_step (e : event) (s : State) :
  session s = false -> staysOffline e = true ->
  session (fst (step e s)) = false
  /\ sent (snd (step e s)) = []
  /\ pendingTimeouts (fst (step e s)) <= pendingTimeouts s.
Proof.
  intros Hsession Hoffline.
  destruct e; cbn [staysOffline] in Hoffline;
    try (apply negb_true_iff in Hoffline; subst);
    unfold_handlers; crunch; rewrite ?Hsession; crunch.
  all: repeat (first [split_send_guarded | split_branch]; crunch).
  all: rewrite ?Hsession; crunch.
  all: try congruence.
  all: stopped_sends_nothing.
  all: unfold sent; cbn [omap list_omap]; rewrite ?Hsent.
  all: repeat split; try assumption; try reflexivity; lia.
Qed.

(** X17: while no session is connected (no start or reset succeeds in
    connecting) the element never calls the transport, whatever is
    captured, and queues no timer. *)
Theorem nothing_is_sent_without_a_session (s : State) (events : list event)
    (Hsession : session s = false)
    (Hoffline : forallb staysOffline events = true) :
  session (fst (run events s)) = false
  /\ sent (snd (run events s)) = []
  /\ pendingTimeouts (fst (run events s)) <= pendingTimeouts s.
Proof.
  revert s Hsession. induction events as [|e events IH]; intros s Hsession.
  - simpl. auto.
  - cbn [forallb] in Hoffline. apply andb_true_iff in Hoffline as [He Hoffline].
    destruct (offline_step e s Hsession He) as (Hsession' & Hsent' & Htimers').
    destruct (IH Hoffline _ Hsession') as (Hsession'' & Hsent'' & Htimers'').
    rewrite run_cons. simpl_fields. rewrite sent_app, Hsent', Hsent''.
    split; [exact Hsession''|]. split; [reflexivity|lia].
Qed.

Lemma nothing_sent_offline_witness :
  sent (snd (run (frames (replicate 25 speech)
                  ++ [StopRecording; StartRecording 48000 false None;
                      AudioProcess speech])
               unconnected)) = [].
Proof.
  assert (session unconnected = false) as Hsession by reflexivity.
  assert (forallb staysOffline
            (frames (replicate 25 speech)
             ++ [StopRecording; StartRecording 48000 false None;
                 AudioProcess speech]) = true) as Hoffline by reflexivity.
  destruct (nothing_is_sent_without_a_session unconnected _ Hsession Hoffline)
    as (_ & Hsent & _).
  exact Hsent.
Defined.

Lemma stuck_guard_step (e : event) (s : State) :
  isProcessingAudio s = true -> pendingTimeouts s = 0 ->
  keepsCapturing e = true -> notStart e = true ->
  isProcessingAudio (fst (step e s)) = true
  /\ pendingTimeouts (fst (step e s)) = 0
  /\ sent (snd (step e s)) = [].
Proof.
  intros Hguard Htimers Hkeep Hnot.
  destruct e; try discriminate Hkeep; try discriminate Hnot;
    unfold_handlers; crunch; rewrite ?Hguard, ?Htimers; crunch.
  all: repeat first
         [ rewrite sendAudioChunk_suppressed by (right; simpl_fields; exact Hguard)
         | split_branch ]; crunch.
  all: rewrite ?Hguard, ?Htimers; crunch.
  all: stopped_sends_nothing.
  all: unfold sent; cbn [omap list_omap]; rewrite ?Hsent.
  all: repeat split; try assumption; reflexivity.
Qed.

(** X18: a guard that is set while no timer is queued, as the send without
    a session leaves it, stays set until a stop, a reset or a new start: no
    event in between clears it, queues a timer or sends, so the speech
    captured meanwhile only accumulates. *)
Theorem guard_without_timer_stays_set (s : State) (events : list event)
    (Hguard : isProcessingAudio s = true) (Htimers : pendingTimeouts s = 0)
    (Hkeep : forallb keepsCapturing events = true)
    (Hnot : forallb notStart events = true) :
  isProcessingAudio (fst (run events s)) = true
  /\ pendingTimeouts (fst (run events s)) = 0
  /\ sent (snd (run events s)) = [].
Proof.
  revert s Hguard Htimers.
  induction events as [|e events IH]; intros s Hguard Htimers.
  - simpl. auto.
  - cbn [forallb] in Hkeep, Hnot.
    apply andb_true_iff in Hkeep as [He Hkeep].
    apply andb_true_iff in Hnot as [He' Hnot].
    destruct (stuck_guard_step e s Hguard Htimers He He')
      as (Hguard' & Htimers' & Hsent').
    destruct (IH Hkeep Hnot _ Hguard' Htimers')
      as (Hguard'' & Htimers'' & Hsent'').
    rewrite run_cons. simpl_fields. rewrite sent_app, Hsent', Hsent''.
    auto.
Qed.

Lemma guard_stays_set_witness :
  isProcessingAudio
    (fst (run (TimeoutFired :: frames (replicate 3 speech) ++ [TimeoutFired])
            (fst (run (frames (replicate 20 speech)) unconnected)))) = true.
Proof.
  pose (s := fst (run (frames (replicate 20 speech)) unconnected)).
  assert (isProcessingAudio s = true) as Hguard by (vm_compute; reflexivity).
  assert (pendingTimeouts s = 0) as Htimers by (vm_compute; reflexivity).
  assert (forallb keepsCapturing
            (TimeoutFired :: frames (replicate 3 speech) ++ [TimeoutFired])
          = true) as Hkeep by reflexivity.
  assert (forallb notStart
            (TimeoutFired :: frames (replicate 3 speech) ++ [TimeoutFired])
          = true) as Hnot by reflexivity.
  destruct (guard_without_timer_stays_set s _ Hguard Htimers Hkeep Hnot)
    as (Hset & _).
  exact Hset.
Defined.

(** ** Visualiser *)

Lemma byte_level_bounds (b : Z) :
  (0 <= b <= 255)%Z -> (0 <= inject_Z b / 255 <= 1)%Q.
Proof.
  intros [Hlo Hhi]. rewrite Zle_Qle in Hlo, Hhi.
  change (inject_Z 0) with 0%Q in Hlo. change (inject_Z 255) with 255%Q in Hhi.
  change (inject_Z b / 255)%Q with (inject_Z b * (1 # 255))%Q.
  split; lra.
Qed.

Lemma byte_level_threshold (b : Z) :
  ((1 # 10) < inject_Z b / 255)%Q <-> (26 <= b)%Z.
Proof.
  change (inject_Z b / 255)%Q with (inject_Z b * (1 # 255))%Q.
  split.
  - intros H. destruct (Z_lt_le_dec b 26) as [Hlt|Hge]; [|exact Hge].
    exfalso. assert (b <= 25)%Z as Hle by lia.
    rewrite Zle_Qle in Hle. change (inject_Z 25) with 25%Q in Hle. lra.
  - intros H. rewrite Zle_Qle in H. change (inject_Z 26) with 26%Q in H. lra.
Qed.

(** X15: for analyser bytes the drawing keeps its proportions: the main
    circle has a radius between 50 and 150 and an opacity between 0.3 and 1,
    the outer ring is drawn exactly when the first output byte is at least
    26, and the inner circle exactly when the first input byte is at least
    26, with a radius above 20 that never exceeds 50 nor the main circle. *)
Theorem visuals_circles_stay_in_proportion
    (b0 b1 c0 : Z) (outputRest inputRest : list Z)
    (Hb0 : (0 <= b0 <= 255)%Z) (Hb1 : (0 <= b1 <= 255)%Z)
    (Hc0 : (0 <= c0 <= 255)%Z) :
  exists radius opacity ring inner,
    Visuals.animate (Some (b0 :: b1 :: outputRest)) (Some (c0 :: inputRest))
    = Some (Visuals.MainCircle radius opacity :: ring ++ inner)
    /\ (50 <= radius <= 150)%Q
    /\ ((3 # 10) <= opacity <= 1)%Q
    /\ ((26 <= b0)%Z ->
        ring = [Visuals.OuterRing (radius + 20) (opacity * (1 # 2))%Q])
    /\ ((b0 < 26)%Z -> ring = [])
    /\ ((26 <= c0)%Z ->
        exists innerRadius,
          inner = [Visuals.InnerCircle innerRadius (inject_Z c0 / 255)%Q]
          /\ (20 < innerRadius <= 50)%Q /\ (innerRadius <= radius)%Q)
    /\ ((c0 < 26)%Z -> inner = []).
Proof.
  pose proof (byte_level_bounds b0 Hb0) as [Hl0 Hh0].
  pose proof (byte_level_bounds b1 Hb1) as [Hl1 Hh1].
  pose proof (byte_level_bounds c0 Hc0) as [Hl2 Hh2].
  unfold Visuals.animate, Visuals.level. cbn [lookup list_lookup].
  exists (50 + inject_Z b0 / 255 * 100)%Q.
  exists ((3 # 10) + inject_Z b1 / 255 * (7 # 10))%Q.
  exists (if Qlt_le_dec (1 # 10) (inject_Z b0 / 255)
          then [Visuals.OuterRing (50 + inject_Z b0 / 255 * 100 + 20)
                  (((3 # 10) + inject_Z b1 / 255 * (7 # 10)) * (1 # 2))%Q]
          else []).
  exists (if Qlt_le_dec (1 # 10) (inject_Z c0 / 255)
          then [Visuals.InnerCircle (20 + inject_Z c0 / 255 * 30)%Q
                  (inject_Z c0 / 255)%Q]
          else []).
  split; [reflexivity|].
  split; [split; lra|]. split; [split; lra|].
  destruct (Qlt_le_dec (1 # 10) (inject_Z b0 / 255)) as [Hring|Hring];
    destruct (Qlt_le_dec (1 # 10) (inject_Z c0 / 255)) as [Hinner|Hinner].
  all: try (pose proof Hring as Hring0; apply byte_level_threshold in Hring).
  all: try (pose proof Hinner as Hinner0;
            apply byte_level_threshold in Hinner).
  all: try (assert (b0 < 26)%Z as Hring'
              by (destruct (Z_lt_le_dec b0 26) as [|Hge]; [assumption|];
                  apply byte_level_threshold in Hge; lra)).
  all: try (assert (c0 < 26)%Z as Hinner'
              by (destruct (Z_lt_le_dec c0 26) as [|Hge]; [assumption|];
                  apply byte_level_threshold in Hge; lra)).
  all: repeat split; intros; try (exfalso; lia); try reflexivity.
  all: eexists; split; [reflexivity|]; repeat split; lra.
Qed.

Lemma visuals_circles_witness :
  exists radius opacity ring inner,
    Visuals.animate (Some [255; 0; 7]%Z) (Some [128; 3]%Z)
    = Some (Visuals.MainCircle radius opacity :: ring ++ inner)
    /\ (50 <= radius <= 150)%Q.
Proof.
  destruct (visuals_circles_stay_in_proportion 255 0 128 [7%Z] [3%Z])
    as (radius & opacity & ring & inner & Hdraw & Hradius & _); try lia.
  exists radius, opacity, ring, inner. split; [exact Hdraw|exact Hradius].
Defined.

Lemma visuals_invariant_step (e : Visuals.event) (s : Visuals.State) :
  visuals_invariant s -> visuals_invariant (Visuals.step e s).
Proof.
  unfold visuals_invariant. destruct s as [c i o x n]. simpl.
  intros [Hctx Hloops]. subst.
  destruct e as [[|]|[|]|]; unfold Visuals.tryInitialize; simpl;
    destruct c, i, o; simpl; auto.
Qed.

Lemma visuals_invariant_run (events : list Visuals.event) :
  forall s, visuals_invariant s -> visuals_invariant (Visuals.run events s).
Proof.
  induction events as [|e events IH]; intros s Hs; [exact Hs|].
  apply IH. now apply visuals_invariant_step.
Qed.

(** X16: whatever the order in which the nodes are set and the canvas
    appears, the visualiser starts its animation loop at most once, has
    started it exactly when it has a canvas and at least one analyser, and
    never starts a second one afterwards. *)
Theorem visuals_animation_starts_exactly_once (events : list Visuals.event) :
  let s := Visuals.run events Visuals.initial in
  Visuals.loops s <= 1
  /\ (Visuals.loops s = 1
      <-> Visuals.canvas s = true
          /\ (Visuals.inputAnalyser s = true
              \/ Visuals.outputAnalyser s = true))
  /\ (forall e, Visuals.loops s = 1 -> Visuals.loops (Visuals.step e s) = 1).
Proof.
  intros s.
  assert (visuals_invariant s) as Hinv
    by (apply visuals_invariant_run; split; reflexivity).
  assert (forall e, visuals_invariant (Visuals.step e s)) as Hnext
    by (intros e; now apply visuals_invariant_step).
  destruct Hinv as [Hctx Hloops].
  split; [rewrite Hloops; destruct (Visuals.ctx s); lia|]. split.
  - rewrite Hloops, Hctx.
    destruct (Visuals.canvas s), (Visuals.inputAnalyser s),
      (Visuals.outputAnalyser s); simpl; split; intros; try lia;
      try discriminate; intuition discriminate.
  - intros e Hone. destruct (Hnext e) as [Hctx' Hloops'].
    rewrite Hloops'. rewrite Hloops in Hone.
    destruct (Visuals.ctx s) eqn:Hx; [|discriminate].
    assert (Visuals.ctx (Visuals.step e s) = true) as ->; [|reflexivity].
    destruct s as [c i o x n]. simpl in *. subst.
    destruct e as [[|]|[|]|]; unfold Visuals.tryInitialize; simpl;
      destruct c, i, o; simpl in *; auto; discriminate.
Qed.
